(** * Safe onboarding web demo: a shallow embedding of the UI logic

    The repository is a React single-page application around an external
    onboarding SDK.  What it owns is UI state management: four step
    handlers with their phase/result/error slots, the wallet chain-readiness
    routine [ensureWalletOnBase], a wrapper around the network client's
    [readContract], and a small [process.env] polyfill.  Each of these is
    embedded below as an executable definition; the wallet provider, the
    network client and the SDK are external and appear as an arbitrary
    stateful oracle. *)

From stdpp Require Import gmap list.
From Stdlib Require Import Ascii String ZArith.

Open Scope Z_scope.

(** ** JavaScript strings

    A JavaScript string is a sequence of UTF-16 code units; [length] counts
    code units and [trim] removes the code units of the ECMAScript
    [WhiteSpace] and [LineTerminator] productions from both ends. *)

Abbreviation jsstring := (list N).

Definition js (s : string) : jsstring :=
  (fun a => N_of_ascii a) <$> list_ascii_of_string s.

Definition is_js_space (c : N) : bool :=
  ((9 <=? c) && (c <=? 13) || (c =? 32) || (c =? 160) || (c =? 5760)
   || (8192 <=? c) && (c <=? 8202) || (c =? 8232) || (c =? 8233)
   || (c =? 8239) || (c =? 8287) || (c =? 12288) || (c =? 65279))%N.

Fixpoint trimStart (s : jsstring) : jsstring :=
  match s with
  | c :: s' => if is_js_space c then trimStart s' else s
  | [] => []
  end.

Definition trimEnd (s : jsstring) : jsstring := rev (trimStart (rev s)).

Definition trim (s : jsstring) : jsstring := trimEnd (trimStart s).

Fixpoint startsWith (s p : jsstring) {struct p} : bool :=
  match p, s with
  | [], _ => true
  | _ :: _, [] => false
  | c :: p', d :: s' => (c =? d)%N && startsWith s' p'
  end.

Fixpoint includes (s p : jsstring) : bool :=
  startsWith s p ||
  match s with
  | [] => false
  | _ :: s' => includes s' p
  end.

(** Truthiness of a string: only the empty string is falsy. *)
Definition truthy (s : jsstring) : bool :=
  match s with [] => false | _ :: _ => true end.

(** [p] occurs somewhere in [s]. *)
Definition contains (s p : jsstring) : Prop :=
  exists before after, s = before ++ p ++ after.

(** ** Thrown values and settled promises *)

Record JsError := mkError { err_name : jsstring; err_message : jsstring }.

(** [new Error(msg)] *)
Definition new_Error (msg : jsstring) : JsError :=
  {| err_name := js "Error"; err_message := msg |}.

(** Values that are not [instanceof Error]; [JsOther] stands for any other
    value, identified by what [String(v)] returns for it. *)
Inductive JsValue :=
| JsUndefined
| JsNull
| JsString (s : jsstring)
| JsOther (str : jsstring).

Definition String_ (v : JsValue) : jsstring :=
  match v with
  | JsUndefined => js "undefined"
  | JsNull => js "null"
  | JsString s => s
  | JsOther str => str
  end.

Inductive Thrown :=
| ThrownError (e : JsError)
| ThrownValue (v : JsValue).

Inductive Settled (A : Type) :=
| Resolved (a : A)
| Rejected (t : Thrown).
Arguments Resolved {A} a.
Arguments Rejected {A} t.

(** [a ?? b] on possibly-undefined values. *)
Definition nullish {A} (a : option A) (b : option A) : option A :=
  match a with Some v => Some v | None => b end.

(** ** The process-env polyfill *)

Module ProcessEnv.

  (** An object used as [Record<string, string | undefined>]: the own
      enumerable properties, each holding a string or [undefined]. *)
Record Process := { env : gmap (list N) (option (list N)) }.

Record ImportMetaEnv := {
    VITE_WALLETCONNECT_PROJECT_ID : option jsstring;
    VITE_SAFE_RPC_URL : option jsstring;
    VITE_SAFE_PRIVATE_KEY : option jsstring
  }.

Definition RPC_URL : jsstring := js "RPC_URL".
Definition PRIVATE_KEY : jsstring := js "PRIVATE_KEY".

  (** Property read [o.k]: an absent property reads as [undefined]. *)
Definition prop (o : gmap (list N) (option (list N))) (k : jsstring)
    : option jsstring :=
    match o !! k with Some v => v | None => None end.

  (** [x ?? y ?? ''] *)
Definition or_empty (x y : option jsstring) : jsstring :=
    match nullish x y with Some v => v | None => [] end.

  (** The module body: returns the new value of [globalThis.process]. *)
Definition polyfill (globalProcess : option Process) (meta : ImportMetaEnv)
    : Process :=
    let existingProcess :=
      match globalProcess with Some p => p | None => {| env := ∅ |} end in
    {| env :=
         <[PRIVATE_KEY :=
             Some (or_empty (prop (env existingProcess) PRIVATE_KEY)
                            (VITE_SAFE_PRIVATE_KEY meta))]>
           (<[RPC_URL :=
                Some (or_empty (prop (env existingProcess) RPC_URL)
                               (VITE_SAFE_RPC_URL meta))]>
              (env existingProcess)) |}.

  (** The environment object that existed before the polyfill ran. *)
Definition previous_env (globalProcess : option Process)
    : gmap (list N) (option (list N)) :=
    match globalProcess with Some p => env p | None => ∅ end.

End ProcessEnv.

(** ** The wrapped network client of the single-step variant *)

Module SingleStep.
Section Client.

Context {World Args Res : Type}.

  (** The network client is external: only its [readContract] method
      matters here, a stateful call that settles one way or the other. *)
Record PublicClient := {
    readContract : Args -> World -> World * Settled Res
  }.

Definition ZeroDataName : jsstring := js "ContractFunctionZeroDataError".
Definition ZeroDataPrefix : jsstring := js "ContractFunctionZeroDataError: ".
Definition NoData : jsstring := js "returned no data".

  (** [error instanceof Error ? error.message : String(error)] *)
Definition message_of (error : Thrown) : jsstring :=
    match error with
    | ThrownError e => err_message e
    | ThrownValue v => String_ v
    end.

  (** The function the proxy's [get] trap hands out for [readContract]. *)
Definition wrapped_readContract (target : PublicClient)
    (args : Args) (w : World) : World * Settled Res :=
    match readContract target args w with
    | (w', Resolved v) => (w', Resolved v)
    | (w', Rejected error) =>
        let message := message_of error in
        if includes message NoData then
          let patchedError :=
            {| err_name := ZeroDataName;
               err_message := ZeroDataPrefix ++ message |} in
          (w', Rejected (ThrownError patchedError))
        else (w', Rejected error)
    end.

  (** [publicClient]: a missing raw client stays missing, otherwise the
      proxy answers [readContract] with the wrapper. *)
Definition publicClient (rawPublicClient : option PublicClient)
    : option PublicClient :=
    match rawPublicClient with
    | None => None
    | Some target => Some {| readContract := wrapped_readContract target |}
    end.

End Client.
Arguments PublicClient : clear implicits.
End SingleStep.

(** ** The multi-step onboarding UI *)

Module MultiStep.

Inductive StepPhase := idle | running | success | error.

Inductive Step := deploy | permissions | transfer | transferBack.

#[global] Instance Step_eq_dec : EqDecision Step.
Proof. solve_decision. Defined.

#[global] Instance StepPhase_eq_dec : EqDecision StepPhase.
Proof. solve_decision. Defined.

(** Result records of the SDK, with the fields the application reads. *)
Record DeploySafeResult := {
  safeAddress : jsstring;
  multiSendCallOnly : jsstring;
  deploy_transactionHash : jsstring
}.

Record SetPermissionsResult := {
  rolesAddress : jsstring;
  predictedProxyAddress : jsstring;
  permissions_transactionHash : jsstring
}.

Record TransferAssetResult := { transfer_transactionHash : jsstring }.

(** The component state: one slot per [useState] call of [App]. *)
Record AppState := {
  deployPhase : StepPhase;
  permissionsPhase : StepPhase;
  transferPhase : StepPhase;
  transferBackPhase : StepPhase;
  deployError : option jsstring;
  permissionsError : option jsstring;
  transferError : option jsstring;
  transferBackError : option jsstring;
  safeResult : option DeploySafeResult;
  permissionsResult : option SetPermissionsResult;
  transferResult : option TransferAssetResult;
  transferBackResult : option TransferAssetResult;
  transferBackSafeAddress : jsstring;
  transferAddress : jsstring;
  transferAmount : jsstring;
  transferBackAddress : jsstring;
  transferBackAmount : jsstring;
  activeStep : option Step
}.

(** The [useState] setters, as functions on the state record. *)
Definition setDeployPhase (v : StepPhase) (st : AppState) : AppState :=
  {| deployPhase := v; permissionsPhase := permissionsPhase st;
     transferPhase := transferPhase st;
     transferBackPhase := transferBackPhase st;
     deployError := deployError st;
     permissionsError := permissionsError st;
     transferError := transferError st;
     transferBackError := transferBackError st;
     safeResult := safeResult st;
     permissionsResult := permissionsResult st;
     transferResult := transferResult st;
     transferBackResult := transferBackResult st;
     transferBackSafeAddress := transferBackSafeAddress st;
     transferAddress := transferAddress st;
     transferAmount := transferAmount st;
     transferBackAddress := transferBackAddress st;
     transferBackAmount := transferBackAmount st;
     activeStep := activeStep st |}.

Definition setPermissionsPhase (v : StepPhase) (st : AppState) : AppState :=
  {| deployPhase := deployPhase st; permissionsPhase := v;
     transferPhase := transferPhase st;
     transferBackPhase := transferBackPhase st;
     deployError := deployError st;
     permissionsError := permissionsError st;
     transferError := transferError st;
     transferBackError := transferBackError st;
     safeResult := safeResult st;
     permissionsResult := permissionsResult st;
     transferResult := transferResult st;
     transferBackResult := transferBackResult st;
     transferBackSafeAddress := transferBackSafeAddress st;
     transferAddress := transferAddress st;
     transferAmount := transferAmount st;
     transferBackAddress := transferBackAddress st;
     transferBackAmount := transferBackAmount st;
     activeStep := activeStep st |}.

Definition setTransferPhase (v : StepPhase) (st : AppState) : AppState :=
  {| deployPhase := deployPhase st;
     permissionsPhase := permissionsPhase st; transferPhase := v;
     transferBackPhase := transferBackPhase st;
     deployError := deployError st;
     permissionsError := permissionsError st;
     transferError := transferError st;
     transferBackError := transferBackError st;
     safeResult := safeResult st;
     permissionsResult := permissionsResult st;
     transferResult := transferResult st;
     transferBackResult := transferBackResult st;
     transferBackSafeAddress := transferBackSafeAddress st;
     transferAddress := transferAddress st;
     transferAmount := transferAmount st;
     transferBackAddress := transferBackAddress st;
     transferBackAmount := transferBackAmount st;
     activeStep := activeStep st |}.

Definition setTransferBackPhase (v : StepPhase) (st : AppState) : AppState :=
  {| deployPhase := deployPhase st;
     permissionsPhase := permissionsPhase st;
     transferPhase := transferPhase st; transferBackPhase := v;
     deployError := deployError st;
     permissionsError := permissionsError st;
     transferError := transferError st;
     transferBackError := transferBackError st;
     safeResult := safeResult st;
     permissionsResult := permissionsResult st;
     transferResult := transferResult st;
     transferBackResult := transferBackResult st;
     transferBackSafeAddress := transferBackSafeAddress st;
     transferAddress := transferAddress st;
     transferAmount := transferAmount st;
     transferBackAddress := transferBackAddress st;
     transferBackAmount := transferBackAmount st;
     activeStep := activeStep st |}.

Definition setDeployError (v : option jsstring) (st : AppState) : AppState :=
  {| deployPhase := deployPhase st;
     permissionsPhase := permissionsPhase st;
     transferPhase := transferPhase st;
     transferBackPhase := transferBackPhase st; deployError := v;
     permissionsError := permissionsError st;
     transferError := transferError st;
     transferBackError := transferBackError st;
     safeResult := safeResult st;
     permissionsResult := permissionsResult st;
     transferResult := transferResult st;
     transferBackResult := transferBackResult st;
     transferBackSafeAddress := transferBackSafeAddress st;
     transferAddress := transferAddress st;
     transferAmount := transferAmount st;
     transferBackAddress := transferBackAddress st;
     transferBackAmount := transferBackAmount st;
     activeStep := activeStep st |}.

Definition setPermissionsError (v : option jsstring) (st : AppState) : AppState :=
  {| deployPhase := deployPhase st;
     permissionsPhase := permissionsPhase st;
     transferPhase := transferPhase st;
     transferBackPhase := transferBackPhase st;
     deployError := deployError st; permissionsError := v;
     transferError := transferError st;
     transferBackError := transferBackError st;
     safeResult := safeResult st;
     permissionsResult := permissionsResult st;
     transferResult := transferResult st;
     transferBackResult := transferBackResult st;
     transferBackSafeAddress := transferBackSafeAddress st;
     transferAddress := transferAddress st;
     transferAmount := transferAmount st;
     transferBackAddress := transferBackAddress st;
     transferBackAmount := transferBackAmount st;
     activeStep := activeStep st |}.

Definition setTransferError (v : option jsstring) (st : AppState) : AppState :=
  {| deployPhase := deployPhase st;
     permissionsPhase := permissionsPhase st;
     transferPhase := transferPhase st;
     transferBackPhase := transferBackPhase st;
     deployError := deployError st;
     permissionsError := permissionsError st; transferError := v;
     transferBackError := transferBackError st;
     safeResult := safeResult st;
     permissionsResult := permissionsResult st;
     transferResult := transferResult st;
     transferBackResult := transferBackResult st;
     transferBackSafeAddress := transferBackSafeAddress st;
     transferAddress := transferAddress st;
     transferAmount := transferAmount st;
     transferBackAddress := transferBackAddress st;
     transferBackAmount := transferBackAmount st;
     activeStep := activeStep st |}.

Definition setTransferBackError (v : option jsstring) (st : AppState) : AppState :=
  {| deployPhase := deployPhase st;
     permissionsPhase := permissionsPhase st;
     transferPhase := transferPhase st;
     transferBackPhase := transferBackPhase st;
     deployError := deployError st;
     permissionsError := permissionsError st;
     transferError := transferError st; transferBackError := v;
     safeResult := safeResult st;
     permissionsResult := permissionsResult st;
     transferResult := transferResult st;
     transferBackResult := transferBackResult st;
     transferBackSafeAddress := transferBackSafeAddress st;
     transferAddress := transferAddress st;
     transferAmount := transferAmount st;
     transferBackAddress := transferBackAddress st;
     transferBackAmount := transferBackAmount st;
     activeStep := activeStep st |}.

Definition setSafeResult (v : option DeploySafeResult) (st : AppState) : AppState :=
  {| deployPhase := deployPhase st;
     permissionsPhase := permissionsPhase st;
     transferPhase := transferPhase st;
     transferBackPhase := transferBackPhase st;
     deployError := deployError st;
     permissionsError := permissionsError st;
     transferError := transferError st;
     transferBackError := transferBackError st; safeResult := v;
     permissionsResult := permissionsResult st;
     transferResult := transferResult st;
     transferBackResult := transferBackResult st;
     transferBackSafeAddress := transferBackSafeAddress st;
     transferAddress := transferAddress st;
     transferAmount := transferAmount st;
     transferBackAddress := transferBackAddress st;
     transferBackAmount := transferBackAmount st;
     activeStep := activeStep st |}.

Definition setPermissionsResult (v : option SetPermissionsResult) (st : AppState) : AppState :=
  {| deployPhase := deployPhase st;
     permissionsPhase := permissionsPhase st;
     transferPhase := transferPhase st;
     transferBackPhase := transferBackPhase st;
     deployError := deployError st;
     permissionsError := permissionsError st;
     transferError := transferError st;
     transferBackError := transferBackError st;
     safeResult := safeResult st; permissionsResult := v;
     transferResult := transferResult st;
     transferBackResult := transferBackResult st;
     transferBackSafeAddress := transferBackSafeAddress st;
     transferAddress := transferAddress st;
     transferAmount := transferAmount st;
     transferBackAddress := transferBackAddress st;
     transferBackAmount := transferBackAmount st;
     activeStep := activeStep st |}.

Definition setTransferResult (v : option TransferAssetResult) (st : AppState) : AppState :=
  {| deployPhase := deployPhase st;
     permissionsPhase := permissionsPhase st;
     transferPhase := transferPhase st;
     transferBackPhase := transferBackPhase st;
     deployError := deployError st;
     permissionsError := permissionsError st;
     transferError := transferError st;
     transferBackError := transferBackError st;
     safeResult := safeResult st;
     permissionsResult := permissionsResult st; transferResult := v;
     transferBackResult := transferBackResult st;
     transferBackSafeAddress := transferBackSafeAddress st;
     transferAddress := transferAddress st;
     transferAmount := transferAmount st;
     transferBackAddress := transferBackAddress st;
     transferBackAmount := transferBackAmount st;
     activeStep := activeStep st |}.

Definition setTransferBackResult (v : option TransferAssetResult) (st : AppState) : AppState :=
  {| deployPhase := deployPhase st;
     permissionsPhase := permissionsPhase st;
     transferPhase := transferPhase st;
     transferBackPhase := transferBackPhase st;
     deployError := deployError st;
     permissionsError := permissionsError st;
     transferError := transferError st;
     transferBackError := transferBackError st;
     safeResult := safeResult st;
     permissionsResult := permissionsResult st;
     transferResult := transferResult st; transferBackResult := v;
     transferBackSafeAddress := transferBackSafeAddress st;
     transferAddress := transferAddress st;
     transferAmount := transferAmount st;
     transferBackAddress := transferBackAddress st;
     transferBackAmount := transferBackAmount st;
     activeStep := activeStep st |}.

Definition setTransferBackSafeAddress (v : jsstring) (st : AppState) : AppState :=
  {| deployPhase := deployPhase st;
     permissionsPhase := permissionsPhase st;
     transferPhase := transferPhase st;
     transferBackPhase := transferBackPhase st;
     deployError := deployError st;
     permissionsError := permissionsError st;
     transferError := transferError st;
     transferBackError := transferBackError st;
     safeResult := safeResult st;
     permissionsResult := permissionsResult st;
     transferResult := transferResult st;
     transferBackResult := transferBackResult st;
     transferBackSafeAddress := v; transferAddress := transferAddress st;
     transferAmount := transferAmount st;
     transferBackAddress := transferBackAddress st;
     transferBackAmount := transferBackAmount st;
     activeStep := activeStep st |}.

Definition setTransferAddress (v : jsstring) (st : AppState) : AppState :=
  {| deployPhase := deployPhase st;
     permissionsPhase := permissionsPhase st;
     transferPhase := transferPhase st;
     transferBackPhase := transferBackPhase st;
     deployError := deployError st;
     permissionsError := permissionsError st;
     transferError := transferError st;
     transferBackError := transferBackError st;
     safeResult := safeResult st;
     permissionsResult := permissionsResult st;
     transferResult := transferResult st;
     transferBackResult := transferBackResult st;
     transferBackSafeAddress := transferBackSafeAddress st;
     transferAddress := v; transferAmount := transferAmount st;
     transferBackAddress := transferBackAddress st;
     transferBackAmount := transferBackAmount st;
     activeStep := activeStep st |}.

Definition setTransferAmount (v : jsstring) (st : AppState) : AppState :=
  {| deployPhase := deployPhase st;
     permissionsPhase := permissionsPhase st;
     transferPhase := transferPhase st;
     transferBackPhase := transferBackPhase st;
     deployError := deployError st;
     permissionsError := permissionsError st;
     transferError := transferError st;
     transferBackError := transferBackError st;
     safeResult := safeResult st;
     permissionsResult := permissionsResult st;
     transferResult := transferResult st;
     transferBackResult := transferBackResult st;
     transferBackSafeAddress := transferBackSafeAddress st;
     transferAddress := transferAddress st; transferAmount := v;
     transferBackAddress := transferBackAddress st;
     transferBackAmount := transferBackAmount st;
     activeStep := activeStep st |}.

Definition setTransferBackAddress (v : jsstring) (st : AppState) : AppState :=
  {| deployPhase := deployPhase st;
     permissionsPhase := permissionsPhase st;
     transferPhase := transferPhase st;
     transferBackPhase := transferBackPhase st;
     deployError := deployError st;
     permissionsError := permissionsError st;
     transferError := transferError st;
     transferBackError := transferBackError st;
     safeResult := safeResult st;
     permissionsResult := permissionsResult st;
     transferResult := transferResult st;
     transferBackResult := transferBackResult st;
     transferBackSafeAddress := transferBackSafeAddress st;
     transferAddress := transferAddress st;
     transferAmount := transferAmount st; transferBackAddress := v;
     transferBackAmount := transferBackAmount st;
     activeStep := activeStep st |}.

Definition setTransferBackAmount (v : jsstring) (st : AppState) : AppState :=
  {| deployPhase := deployPhase st;
     permissionsPhase := permissionsPhase st;
     transferPhase := transferPhase st;
     transferBackPhase := transferBackPhase st;
     deployError := deployError st;
     permissionsError := permissionsError st;
     transferError := transferError st;
     transferBackError := transferBackError st;
     safeResult := safeResult st;
     permissionsResult := permissionsResult st;
     transferResult := transferResult st;
     transferBackResult := transferBackResult st;
     transferBackSafeAddress := transferBackSafeAddress st;
     transferAddress := transferAddress st;
     transferAmount := transferAmount st;
     transferBackAddress := transferBackAddress st;
     transferBackAmount := v; activeStep := activeStep st |}.

Definition setActiveStep (v : option Step) (st : AppState) : AppState :=
  {| deployPhase := deployPhase st;
     permissionsPhase := permissionsPhase st;
     transferPhase := transferPhase st;
     transferBackPhase := transferBackPhase st;
     deployError := deployError st;
     permissionsError := permissionsError st;
     transferError := transferError st;
     transferBackError := transferBackError st;
     safeResult := safeResult st;
     permissionsResult := permissionsResult st;
     transferResult := transferResult st;
     transferBackResult := transferBackResult st;
     transferBackSafeAddress := transferBackSafeAddress st;
     transferAddress := transferAddress st;
     transferAmount := transferAmount st;
     transferBackAddress := transferBackAddress st;
     transferBackAmount := transferBackAmount st; activeStep := v |}.

Notation "st |> f" := (f st) (at level 45, left associativity, only parsing).

Definition initialState : AppState :=
  {| deployPhase := idle; permissionsPhase := idle;
     transferPhase := idle; transferBackPhase := idle;
     deployError := None; permissionsError := None;
     transferError := None; transferBackError := None;
     safeResult := None; permissionsResult := None;
     transferResult := None; transferBackResult := None;
     transferBackSafeAddress := []; transferAddress := [];
     transferAmount := []; transferBackAddress := [];
     transferBackAmount := []; activeStep := None |}.

(** Per-step views of the state. *)
Definition phase_of (s : Step) (st : AppState) : StepPhase :=
  match s with
  | deploy => deployPhase st
  | permissions => permissionsPhase st
  | transfer => transferPhase st
  | transferBack => transferBackPhase st
  end.

Definition error_of (s : Step) (st : AppState) : option jsstring :=
  match s with
  | deploy => deployError st
  | permissions => permissionsError st
  | transfer => transferError st
  | transferBack => transferBackError st
  end.

(** Objects of the wallet and network libraries are references. *)
Definition handle := nat.

Definition base_id : Z := 8453.

(** What the wagmi hooks hand to one render of [App]. *)
Record Hooks := {
  isConnected : bool;
  chainId : Z;
  publicClient : option handle;
  walletClient : option handle;
  switchChainAsync_is_function : bool;
  refetchWalletClient_is_function : bool
}.

(** External calls, as recorded in the trace of a run. *)
Inductive Call :=
| CGetChainId (h : handle)
| CSwitchChain (h : handle) (id : Z)
| CSwitchChainAsync (id : Z)
| CRefetchWalletClient
| CNewOnboardingClient (wallet public : handle)
| CDeploySafe
| CSetPermissions (safe multiSend : jsstring)
| CTransferAssetFromCallerToSafe (safe asset amount : jsstring)
| CTransferAssetFromSafeToSafeOwner (safe asset amount : jsstring).

(** [EvCall c None]: the call resolved; [EvCall c (Some t)]: it rejected
    with [t].  [EvResolved h id]: [resolveChainId] produced [id] for the
    session [h].  [EvWarn t]: the [console.warn] of the caught error. *)
Inductive Event :=
| EvCall (c : Call) (rejection : option Thrown)
| EvResolved (h : handle) (id : option Z)
| EvWarn (t : Thrown).

Definition is_switch (c : Call) : bool :=
  match c with
  | CSwitchChain _ _ | CSwitchChainAsync _ => true
  | _ => false
  end.

Definition is_sdk (c : Call) : bool :=
  match c with
  | CNewOnboardingClient _ _ | CDeploySafe | CSetPermissions _ _
  | CTransferAssetFromCallerToSafe _ _ _
  | CTransferAssetFromSafeToSafeOwner _ _ _ => true
  | _ => false
  end.

(** The wallet provider, the wagmi connection and the SDK: an arbitrary
    state machine over a world [W]. *)
Record Oracle (W : Type) := {
  (* session.chain?.id *)
  chain_id_of : handle -> W -> option Z;
  (* typeof session.getChainId === 'function', and the call *)
  has_getChainId : handle -> W -> bool;
  getChainId : handle -> W -> W * Settled Z;
  (* typeof session.switchChain === 'function', and the call *)
  has_switchChain : handle -> W -> bool;
  switchChain : handle -> Z -> W -> W * Settled unit;
  (* session.account *)
  account_of : handle -> W -> option jsstring;
  (* wagmi: switchChainAsync({ chainId }) *)
  switchChainAsync : Z -> W -> W * Settled unit;
  (* wagmi: (await refetchWalletClient()).data *)
  refetchWalletClient : W -> W * Settled (option handle);
  (* new OnboardingClient({ walletClient, publicClient, feeConfigFetcher }) *)
  new_OnboardingClient : handle -> handle -> W -> W * Settled unit;
  (* the methods of the client built from that session and network client *)
  deploySafe : handle -> handle -> W -> W * Settled DeploySafeResult;
  setPermissions :
    handle -> handle -> jsstring -> jsstring ->
    W -> W * Settled SetPermissionsResult;
  transferAssetFromCallerToSafe :
    handle -> handle -> jsstring -> jsstring -> jsstring ->
    W -> W * Settled TransferAssetResult;
  transferAssetFromSafeToSafeOwner :
    handle -> handle -> jsstring -> jsstring -> jsstring ->
    W -> W * Settled TransferAssetResult
}.
Arguments chain_id_of {W}.
Arguments has_getChainId {W}.
Arguments getChainId {W}.
Arguments has_switchChain {W}.
Arguments switchChain {W}.
Arguments account_of {W}.
Arguments switchChainAsync {W}.
Arguments refetchWalletClient {W}.
Arguments new_OnboardingClient {W}.
Arguments deploySafe {W}.
Arguments setPermissions {W}.
Arguments transferAssetFromCallerToSafe {W}.
Arguments transferAssetFromSafeToSafeOwner {W}.

(** *** Asynchronous code: world, trace and rejection *)

Section Async.

Context {W : Type}.

(** An [async] computation reads and changes the world, extends the
    trace, and settles. *)
Definition Async (A : Type) : Type :=
  W * list Event -> (W * list Event) * Settled A.

Definition ret {A} (a : A) : Async A := fun s => (s, Resolved a).

Definition throw {A} (t : Thrown) : Async A := fun s => (s, Rejected t).

Definition bind {A B} (m : Async A) (k : A -> Async B) : Async B :=
  fun s =>
    match m s with
    | (s', Resolved a) => k a s'
    | (s', Rejected t) => (s', Rejected t)
    end.

Definition try_catch {A} (m : Async A) (handler : Thrown -> Async A)
  : Async A :=
  fun s =>
    match m s with
    | (s', Resolved a) => (s', Resolved a)
    | (s', Rejected t) => handler t s'
    end.

Definition read {A} (f : W -> A) : Async A :=
  fun s => (s, Resolved (f (fst s))).

Definition emit (e : Event) : Async unit :=
  fun s => ((fst s, snd s ++ [e]), Resolved tt).

Definition rejection_of {A} (r : Settled A) : option Thrown :=
  match r with Resolved _ => None | Rejected t => Some t end.

(** [await] of an external call. *)
Definition await {A} (c : Call) (f : W -> W * Settled A) : Async A :=
  fun s =>
    let (w', r) := f (fst s) in
    ((w', snd s ++ [EvCall c (rejection_of r)]), r).

End Async.

Notation "'let*' x ':=' m 'in' k" := (bind m (fun x => k))
  (at level 10, x name, m at level 100, k at level 200).
Notation "m '>>' k" := (bind m (fun _ => k))
  (at level 65, right associativity).

(** *** Messages *)

Definition msg_no_wallet : jsstring :=
  js "Wallet client not available. Connect a wallet first.".
Definition msg_switch_network : jsstring :=
  js "Please switch your wallet to the Base network and try again.".
Definition msg_no_account : jsstring :=
  js "Wallet client must have an active account.".
Definition msg_no_public_client : jsstring := js "Public client not available.".
Definition msg_deploy_first : jsstring := js "Deploy a Safe first.".
Definition msg_token_address : jsstring := js "Enter a valid token address.".
Definition msg_safe_address : jsstring := js "Enter a valid Safe address.".
Definition msg_amount : jsstring :=
  js "Enter an amount (integer or hex string).".
Definition msg_deploy_failed : jsstring := js "Failed to deploy Safe.".
Definition msg_permissions_failed : jsstring :=
  js "Failed to set permissions.".
Definition msg_transfer_failed : jsstring := js "Token transfer failed.".

(** The generic text a handler shows for a thrown non-[Error]. *)
Definition fallback_of (s : Step) : jsstring :=
  match s with
  | deploy => msg_deploy_failed
  | permissions => msg_permissions_failed
  | transfer | transferBack => msg_transfer_failed
  end.

(** [error instanceof Error ? error.message : fallback] *)
Definition caught_message (err : Thrown) (fallback : jsstring) : jsstring :=
  match err with
  | ThrownError e => err_message e
  | ThrownValue _ => fallback
  end.

(** [!a || !a.startsWith('0x') || a.length !== 42] *)
Definition bad_address (a : jsstring) : bool :=
  negb (truthy a) || negb (startsWith a (js "0x"))
  || negb (List.length a =? 42)%nat.

(** [currentChainId !== base.id] *)
Definition not_base (currentChainId : option Z) : bool :=
  match currentChainId with
  | Some id => negb (id =? base_id)
  | None => true
  end.

(** *** The chain-readiness negotiator and the four handlers *)

Section Handlers.

Context {W : Type} (O : Oracle W).

(** [resolveChainId], for the session that [activeWalletClient] holds at
    the time of the call. *)
Definition resolveChainId (activeWalletClient : handle) : Async (option Z) :=
  let* direct := read (chain_id_of O activeWalletClient) in
  let* id :=
    match direct with
    | Some id => ret (Some id)
    | None =>
        let* is_function := read (has_getChainId O activeWalletClient) in
        if is_function
        then let* id := await (CGetChainId activeWalletClient)
                              (getChainId O activeWalletClient) in
             ret (Some id)
        else ret None
    end in
  emit (EvResolved activeWalletClient id) >> ret id.

Definition ensureWalletOnBase (hk : Hooks) : Async handle :=
  match walletClient hk with
  | None => throw (ThrownError (new_Error msg_no_wallet))
  | Some wc =>
      let* currentChainId := resolveChainId wc in
      let* activeWalletClient :=
        if not_base currentChainId then
          let* has_switch := read (has_switchChain O wc) in
          let* switched :=
            if has_switch then
              try_catch
                (await (CSwitchChain wc base_id) (switchChain O wc base_id)
                 >> ret true)
                (fun err => emit (EvWarn err) >> ret false)
            else ret false in
          let* switched :=
            if negb switched && switchChainAsync_is_function hk then
              await (CSwitchChainAsync base_id) (switchChainAsync O base_id)
              >> ret true
            else ret switched in
          let* activeWalletClient :=
            if switched && refetchWalletClient_is_function hk then
              let* refreshed :=
                await CRefetchWalletClient (refetchWalletClient O) in
              match refreshed with
              | Some data => ret data
              | None => ret wc
              end
            else ret wc in
          let* currentChainId := resolveChainId activeWalletClient in
          if not_base currentChainId
          then throw (ThrownError (new_Error msg_switch_network))
          else ret activeWalletClient
        else ret wc in
      let* account := read (account_of O activeWalletClient) in
      match account with
      | None => throw (ThrownError (new_Error msg_no_account))
      | Some _ => ret activeWalletClient
      end
  end.

(** A handler that got past its pre-flight checks and is suspended at
    [await ensureWalletOnBase()], with what its closure captured. *)
Inductive Pending :=
| PDeploy (hk : Hooks) (pc : handle)
| PPermissions (hk : Hooks) (pc : handle) (safe : DeploySafeResult)
| PTransfer (hk : Hooks) (pc : handle)
    (safe tokenAddress amount : jsstring)
| PTransferBack (hk : Hooks) (pc : handle)
    (safeAddressInput tokenAddress amount : jsstring).

Definition pending_step (p : Pending) : Step :=
  match p with
  | PDeploy _ _ => deploy
  | PPermissions _ _ _ => permissions
  | PTransfer _ _ _ _ _ => transfer
  | PTransferBack _ _ _ _ _ => transferBack
  end.

(** **** handleDeploySafe *)

Definition handleDeploySafe_start (hk : Hooks) (st : AppState)
  : AppState * option Pending :=
  match publicClient hk with
  | None =>
      (st |> setDeployError (Some msg_no_public_client)
          |> setDeployPhase error, None)
  | Some pc =>
      (st |> setActiveStep (Some deploy)
          |> setDeployPhase running
          |> setDeployError None
          |> setPermissionsPhase idle
          |> setPermissionsError None
          |> setPermissionsResult None
          |> setTransferPhase idle
          |> setTransferError None
          |> setTransferResult None
          |> setTransferBackPhase idle
          |> setTransferBackError None
          |> setTransferBackResult None
          |> setSafeResult None,
       Some (PDeploy hk pc))
  end.

Definition handleDeploySafe_try (hk : Hooks) (pc : handle)
  : Async DeploySafeResult :=
  let* activeWalletClient := ensureWalletOnBase hk in
  await (CNewOnboardingClient activeWalletClient pc)
        (new_OnboardingClient O activeWalletClient pc) >>
  await CDeploySafe (deploySafe O activeWalletClient pc).

Definition handleDeploySafe_settle (r : Settled DeploySafeResult)
  (st : AppState) : AppState :=
  match r with
  | Resolved result =>
      st |> setSafeResult (Some result) |> setDeployPhase success
  | Rejected err =>
      st |> setDeployError (Some (caught_message err msg_deploy_failed))
         |> setDeployPhase error
  end |> setActiveStep None.

(** **** handleSetPermissions *)

Definition handleSetPermissions_start (hk : Hooks) (st : AppState)
  : AppState * option Pending :=
  match publicClient hk with
  | None =>
      (st |> setPermissionsError (Some msg_no_public_client)
          |> setPermissionsPhase error, None)
  | Some pc =>
      match safeResult st with
      | Some safe =>
          if truthy (safeAddress safe) then
            (st |> setActiveStep (Some permissions)
                |> setPermissionsPhase running
                |> setPermissionsError None
                |> setTransferPhase idle
                |> setTransferError None
                |> setTransferResult None
                |> setTransferBackPhase idle
                |> setTransferBackError None
                |> setTransferBackResult None,
             Some (PPermissions hk pc safe))
          else
            (st |> setPermissionsError (Some msg_deploy_first)
                |> setPermissionsPhase error, None)
      | None =>
          (st |> setPermissionsError (Some msg_deploy_first)
              |> setPermissionsPhase error, None)
      end
  end.

Definition handleSetPermissions_try (hk : Hooks) (pc : handle)
  (safe : DeploySafeResult) : Async SetPermissionsResult :=
  let* activeWalletClient := ensureWalletOnBase hk in
  await (CNewOnboardingClient activeWalletClient pc)
        (new_OnboardingClient O activeWalletClient pc) >>
  await (CSetPermissions (safeAddress safe) (multiSendCallOnly safe))
        (setPermissions O activeWalletClient pc
           (safeAddress safe) (multiSendCallOnly safe)).

Definition handleSetPermissions_settle (r : Settled SetPermissionsResult)
  (st : AppState) : AppState :=
  match r with
  | Resolved result =>
      st |> setPermissionsResult (Some result)
         |> setPermissionsPhase success
  | Rejected err =>
      st |> setPermissionsError
              (Some (caught_message err msg_permissions_failed))
         |> setPermissionsPhase error
  end |> setActiveStep None.

(** **** handleTransfer *)

Definition handleTransfer_start (hk : Hooks) (st : AppState)
  : AppState * option Pending :=
  match publicClient hk with
  | None =>
      (st |> setTransferError (Some msg_no_public_client)
          |> setTransferPhase error, None)
  | Some pc =>
      match safeResult st with
      | Some safe =>
          if truthy (safeAddress safe) then
            let tokenAddress := trim (transferAddress st) in
            let amount := trim (transferAmount st) in
            if bad_address tokenAddress then
              (st |> setTransferError (Some msg_token_address)
                  |> setTransferPhase error, None)
            else if negb (truthy amount) then
              (st |> setTransferError (Some msg_amount)
                  |> setTransferPhase error, None)
            else
              (st |> setActiveStep (Some transfer)
                  |> setTransferPhase running
                  |> setTransferError None,
               Some (PTransfer hk pc (safeAddress safe) tokenAddress amount))
          else
            (st |> setTransferError (Some msg_deploy_first)
                |> setTransferPhase error, None)
      | None =>
          (st |> setTransferError (Some msg_deploy_first)
              |> setTransferPhase error, None)
      end
  end.

Definition handleTransfer_try (hk : Hooks) (pc : handle)
  (safe tokenAddress amount : jsstring) : Async TransferAssetResult :=
  let* activeWalletClient := ensureWalletOnBase hk in
  await (CNewOnboardingClient activeWalletClient pc)
        (new_OnboardingClient O activeWalletClient pc) >>
  await (CTransferAssetFromCallerToSafe safe tokenAddress amount)
        (transferAssetFromCallerToSafe O activeWalletClient pc
           safe tokenAddress amount).

Definition handleTransfer_settle (r : Settled TransferAssetResult)
  (st : AppState) : AppState :=
  match r with
  | Resolved result =>
      st |> setTransferResult (Some result) |> setTransferPhase success
  | Rejected err =>
      st |> setTransferError (Some (caught_message err msg_transfer_failed))
         |> setTransferPhase error
  end |> setActiveStep None.

(** **** handleTransferBack *)

Definition handleTransferBack_start (hk : Hooks) (st : AppState)
  : AppState * option Pending :=
  match publicClient hk with
  | None =>
      (st |> setTransferBackError (Some msg_no_public_client)
          |> setTransferBackPhase error, None)
  | Some pc =>
      let safeAddressInput := trim (transferBackSafeAddress st) in
      let tokenAddress := trim (transferBackAddress st) in
      let amount := trim (transferBackAmount st) in
      if bad_address safeAddressInput then
        (st |> setTransferBackError (Some msg_safe_address)
            |> setTransferBackPhase error, None)
      else if bad_address tokenAddress then
        (st |> setTransferBackError (Some msg_token_address)
            |> setTransferBackPhase error, None)
      else if negb (truthy amount) then
        (st |> setTransferBackError (Some msg_amount)
            |> setTransferBackPhase error, None)
      else
        (st |> setActiveStep (Some transferBack)
            |> setTransferBackPhase running
            |> setTransferBackError None,
         Some (PTransferBack hk pc safeAddressInput tokenAddress amount))
  end.

Definition handleTransferBack_try (hk : Hooks) (pc : handle)
  (safeAddressInput tokenAddress amount : jsstring)
  : Async TransferAssetResult :=
  let* activeWalletClient := ensureWalletOnBase hk in
  await (CNewOnboardingClient activeWalletClient pc)
        (new_OnboardingClient O activeWalletClient pc) >>
  await (CTransferAssetFromSafeToSafeOwner safeAddressInput tokenAddress amount)
        (transferAssetFromSafeToSafeOwner O activeWalletClient pc
           safeAddressInput tokenAddress amount).

Definition handleTransferBack_settle (r : Settled TransferAssetResult)
  (st : AppState) : AppState :=
  match r with
  | Resolved result =>
      st |> setTransferBackResult (Some result)
         |> setTransferBackPhase success
  | Rejected err =>
      st |> setTransferBackError
              (Some (caught_message err msg_transfer_failed))
         |> setTransferBackPhase error
  end |> setActiveStep None.

(** **** The handlers by step *)

Definition start (s : Step) (hk : Hooks) (st : AppState)
  : AppState * option Pending :=
  match s with
  | deploy => handleDeploySafe_start hk st
  | permissions => handleSetPermissions_start hk st
  | transfer => handleTransfer_start hk st
  | transferBack => handleTransferBack_start hk st
  end.

(** The rest of a suspended handler: the [try] block, then the state
    updates of its end, of [catch] and of [finally]. *)
Definition resume (p : Pending) (s : W * list Event) (st : AppState)
  : (W * list Event) * AppState :=
  match p with
  | PDeploy hk pc =>
      let (s', r) := handleDeploySafe_try hk pc s in
      (s', handleDeploySafe_settle r st)
  | PPermissions hk pc safe =>
      let (s', r) := handleSetPermissions_try hk pc safe s in
      (s', handleSetPermissions_settle r st)
  | PTransfer hk pc safe tokenAddress amount =>
      let (s', r) := handleTransfer_try hk pc safe tokenAddress amount s in
      (s', handleTransfer_settle r st)
  | PTransferBack hk pc safeAddressInput tokenAddress amount =>
      let (s', r) :=
        handleTransferBack_try hk pc safeAddressInput tokenAddress amount s in
      (s', handleTransferBack_settle r st)
  end.

(** A handler from the click to its end, nothing else happening in
    between. *)
Definition run_handler (s : Step) (hk : Hooks) (st : AppState)
  (w : W * list Event) : (W * list Event) * AppState :=
  match start s hk st with
  | (st1, None) => (w, st1)
  | (st1, Some p) => resume p w st1
  end.

(** *** The rendered buttons and the event loop *)

Definition canInteract (hk : Hooks) : bool :=
  isConnected hk && (chainId hk =? base_id)
  && bool_decide (is_Some (publicClient hk)).

(** The [disabled] attribute of the step's button. *)
Definition disabled (s : Step) (hk : Hooks) (st : AppState) : bool :=
  match s with
  | deploy =>
      negb (canInteract hk) || bool_decide (activeStep st = Some deploy)
  | permissions =>
      negb (canInteract hk) || bool_decide (safeResult st = None)
      || bool_decide (activeStep st = Some permissions)
  | transfer =>
      negb (canInteract hk) || bool_decide (safeResult st = None)
      || bool_decide (activeStep st = Some transfer)
  | transferBack =>
      negb (canInteract hk)
      || bool_decide (activeStep st = Some transferBack)
  end.

Inductive Field :=
| input_safeBackAddress
| input_tokenAddress
| input_tokenAmount
| input_tokenBackAddress
| input_tokenBackAmount.

(** The [onChange] handlers of the form inputs. *)
Definition onChange (f : Field) (v : jsstring) (st : AppState) : AppState :=
  match f with
  | input_safeBackAddress => setTransferBackSafeAddress v st
  | input_tokenAddress => setTransferAddress v st
  | input_tokenAmount => setTransferAmount v st
  | input_tokenBackAddress => setTransferBackAddress v st
  | input_tokenBackAmount => setTransferBackAmount v st
  end.

(** The page: component state, the hooks of the last render, the
    handlers suspended at an [await], and the outside world. *)
Record UI := {
  ui_state : AppState;
  ui_hooks : Hooks;
  ui_pending : list Pending;
  ui_world : W * list Event
}.

Inductive UiEvent :=
| Click (s : Step)
| Finish (i : nat)
| Render (hk : Hooks)
| Change (f : Field) (v : jsstring).

(** One turn of the event loop.  A click on a disabled button is not
    delivered.  The state updates of a suspended handler all happen at its
    end, so for the component state its continuation is one step. *)
Definition ui_step (e : UiEvent) (ui : UI) : option UI :=
  match e with
  | Click s =>
      if disabled s (ui_hooks ui) (ui_state ui) then None
      else
        let (st', p) := start s (ui_hooks ui) (ui_state ui) in
        Some {| ui_state := st'; ui_hooks := ui_hooks ui;
                ui_pending := ui_pending ui ++ option_list p;
                ui_world := ui_world ui |}
  | Finish i =>
      match ui_pending ui !! i with
      | None => None
      | Some p =>
          let (w', st') := resume p (ui_world ui) (ui_state ui) in
          Some {| ui_state := st'; ui_hooks := ui_hooks ui;
                  ui_pending := delete i (ui_pending ui);
                  ui_world := w' |}
      end
  | Render hk =>
      Some {| ui_state := ui_state ui; ui_hooks := hk;
              ui_pending := ui_pending ui; ui_world := ui_world ui |}
  | Change f v =>
      Some {| ui_state := onChange f v (ui_state ui);
              ui_hooks := ui_hooks ui;
              ui_pending := ui_pending ui; ui_world := ui_world ui |}
  end.

Fixpoint ui_run (es : list UiEvent) (ui : UI) : option UI :=
  match es with
  | [] => Some ui
  | e :: es' =>
      match ui_step e ui with
      | Some ui' => ui_run es' ui'
      | None => None
      end
  end.

Definition ui_init (hk : Hooks) (w : W) : UI :=
  {| ui_state := initialState; ui_hooks := hk;
     ui_pending := []; ui_world := (w, []) |}.

(** The user waits: every click of the run arrives while the active-step
    marker is empty. *)
Fixpoint waits_for_idle (es : list UiEvent) (ui : UI) : bool :=
  match es with
  | [] => true
  | e :: es' =>
      match e with
      | Click _ => bool_decide (activeStep (ui_state ui) = None)
      | _ => true
      end
      && match ui_step e ui with
         | Some ui' => waits_for_idle es' ui'
         | None => true
         end
  end.

End Handlers.

Arguments UI : clear implicits.

(** While the marker is empty nothing runs and nothing is suspended;
    while it names a step, that step's handler is the one suspended and no
    other step runs. *)
Definition quiet {W : Type} (ui : UI W) : Prop :=
  match activeStep (ui_state ui) with
  | None =>
      ui_pending ui = [] /\ forall s, phase_of s (ui_state ui) <> running
  | Some a =>
      (exists p, ui_pending ui = [p] /\ pending_step p = a)
      /\ forall s, phase_of s (ui_state ui) = running -> s = a
  end.

Definition at_most_one_running (st : AppState) : Prop :=
  forall s1 s2 : Step,
    phase_of s1 st = running -> phase_of s2 st = running -> s1 = s2.

(** The textual shape asked of an address: 0x-prefixed, 42 code units. *)
Definition hex_shaped (a : jsstring) : Prop :=
  (exists rest, a = js "0x" ++ rest) /\ List.length a = 42%nat.

Definition no_result (s : Step) (st : AppState) : Prop :=
  match s with
  | deploy => safeResult st = None
  | permissions => permissionsResult st = None
  | transfer => transferResult st = None
  | transferBack => transferBackResult st = None
  end.

Definition same_result (s : Step) (st st' : AppState) : Prop :=
  match s with
  | deploy => safeResult st' = safeResult st
  | permissions => permissionsResult st' = permissionsResult st
  | transfer => transferResult st' = transferResult st
  | transferBack => transferBackResult st' = transferBackResult st
  end.

(** The step is back in its initial empty state. *)
Definition cleared (s : Step) (st : AppState) : Prop :=
  phase_of s st = idle /\ no_result s st /\ error_of s st = None.

(** The step's three slots are what they were. *)
Definition untouched (s : Step) (st st' : AppState) : Prop :=
  phase_of s st' = phase_of s st /\ same_result s st st'
  /\ error_of s st' = error_of s st.

(** Position in the pipeline. *)
Definition position (s : Step) : nat :=
  match s with
  | deploy => 0
  | permissions => 1
  | transfer => 2
  | transferBack => 3
  end.

Definition earlier (s1 s2 : Step) : Prop := (position s1 < position s2)%nat.

(** *** Reading a trace *)

(** The negotiator got to know a chain id. *)
Definition some_resolved (tr : list Event) : bool :=
  existsb (fun e => match e with EvResolved _ _ => true | _ => false end) tr.

(** The chain id it resolved first. *)
Fixpoint first_resolved (tr : list Event) : option (option Z) :=
  match tr with
  | [] => None
  | EvResolved _ id :: _ => Some id
  | _ :: tr' => first_resolved tr'
  end.

(** Every chain id it resolved, at first or again later, is not the
    required one. *)
Definition all_resolved_differ (tr : list Event) : bool :=
  forallb (fun e => match e with EvResolved _ id => not_base id | _ => true end)
          tr.

(** No session-level and no provider-level switch call resolved. *)
Definition no_switch_succeeded (tr : list Event) : bool :=
  forallb (fun e => match e with
                    | EvCall c None => negb (is_switch c)
                    | _ => true
                    end) tr.

(** Neither the constructor nor a method of the SDK was called. *)
Definition no_sdk_call (tr : list Event) : bool :=
  forallb (fun e => match e with EvCall c _ => negb (is_sdk c) | _ => true end)
          tr.

(** The first rejection that no [catch] inside the negotiator takes: any
    rejected call but the session-level [switchChain]. *)
Fixpoint uncaught_rejection (tr : list Event) : option Thrown :=
  match tr with
  | [] => None
  | EvCall (CSwitchChain _ _) _ :: tr' => uncaught_rejection tr'
  | EvCall _ (Some t) :: _ => Some t
  | _ :: tr' => uncaught_rejection tr'
  end.

End MultiStep.

(** ** Concrete worlds

    A small family of wallets to run the definitions on: the world is the
    chain the wallet is on, and a script says how the provider answers. *)

Module Scenario.
Import MultiStep.

Record Script := {
  exposes_chain : bool;
  moves_anyway : bool;
  session_switch : option (Settled unit);
  provider_switch : Settled unit;
  refreshed_session : option handle;
  active_account : option jsstring
}.

Definition sampleSafe : DeploySafeResult :=
  {| safeAddress := js "0x5afe5afe5afe5afe5afe5afe5afe5afe5afe5afe";
     multiSendCallOnly := js "0x9641d764fc13c8b624c04430c7356c1c7c8102e2";
     deploy_transactionHash := js "0xd0" |}.

Definition samplePermissions : SetPermissionsResult :=
  {| rolesAddress := js "0x4011e54011e54011e54011e54011e54011e54011";
     predictedProxyAddress := js "0x9409994099940999409994099940999409994099";
     permissions_transactionHash := js "0xd1" |}.

Definition sampleTransfer : TransferAssetResult :=
  {| transfer_transactionHash := js "0xd2" |}.

Definition switch_to (sc : Script) (id w : Z) (r : Settled unit)
  : Z * Settled unit :=
  match r with
  | Resolved _ => (id, Resolved tt)
  | Rejected t => (if moves_anyway sc then id else w, Rejected t)
  end.

Definition scripted (sc : Script) : Oracle Z :=
  {| chain_id_of := fun _ w => if exposes_chain sc then Some w else None;
     has_getChainId := fun _ _ => true;
     getChainId := fun _ w => (w, Resolved w);
     has_switchChain := fun _ _ => bool_decide (is_Some (session_switch sc));
     switchChain := fun _ id w =>
       match session_switch sc with
       | Some r => switch_to sc id w r
       | None => (w, Rejected (ThrownValue JsUndefined))
       end;
     account_of := fun _ _ => active_account sc;
     switchChainAsync := fun id w => switch_to sc id w (provider_switch sc);
     refetchWalletClient := fun w => (w, Resolved (refreshed_session sc));
     new_OnboardingClient := fun _ _ w => (w, Resolved tt);
     deploySafe := fun _ _ w => (w, Resolved sampleSafe);
     setPermissions := fun _ _ _ _ w => (w, Resolved samplePermissions);
     transferAssetFromCallerToSafe :=
       fun _ _ _ _ _ w => (w, Resolved sampleTransfer);
     transferAssetFromSafeToSafeOwner :=
       fun _ _ _ _ _ w => (w, Resolved sampleTransfer) |}.

Definition owner : jsstring := js "0x0123456789abcdef0123456789abcdef01234567".
Definition usdc : jsstring := js "0x833589fcd6edb6e08f4c7c32d4f71b54bda02913".

Definition userRejected : Thrown :=
  ThrownError (new_Error (js "User rejected the request.")).

(** The wallet performs the session-level switch. *)
Definition cooperative : Script :=
  {| exposes_chain := false; moves_anyway := false;
     session_switch := Some (Resolved tt);
     provider_switch := Resolved tt; refreshed_session := Some 2%nat;
     active_account := Some owner |}.

(** The session has no switch method and the user turns down the
    provider-level request. *)
Definition refusing : Script :=
  {| exposes_chain := true; moves_anyway := false;
     session_switch := None;
     provider_switch := Rejected userRejected; refreshed_session := None;
     active_account := Some owner |}.

(** The session-level switch fails and is only logged. *)
Definition failing_session : Script :=
  {| exposes_chain := true; moves_anyway := false;
     session_switch := Some (Rejected userRejected);
     provider_switch := Rejected userRejected; refreshed_session := None;
     active_account := Some owner |}.

(** The session-level switch reports a failure although the wallet did
    change network. *)
Definition flaky : Script :=
  {| exposes_chain := false; moves_anyway := true;
     session_switch := Some (Rejected userRejected);
     provider_switch := Rejected userRejected; refreshed_session := None;
     active_account := Some owner |}.

(** Hooks of a connected page on Base. *)
Definition readyHooks : Hooks :=
  {| isConnected := true; chainId := base_id; publicClient := Some 7%nat;
     walletClient := Some 1%nat; switchChainAsync_is_function := true;
     refetchWalletClient_is_function := true |}.

(** The same page when wagmi offers no provider-level switch. *)
Definition noProviderSwitch : Hooks :=
  {| isConnected := true; chainId := base_id; publicClient := Some 7%nat;
     walletClient := Some 1%nat; switchChainAsync_is_function := false;
     refetchWalletClient_is_function := true |}.

Definition deployedState : AppState :=
  initialState |> setSafeResult (Some sampleSafe) |> setDeployPhase success.

(** All four steps done once, forms filled in. *)
Definition completedState : AppState :=
  deployedState
    |> setPermissionsResult (Some samplePermissions)
    |> setPermissionsPhase success
    |> setTransferResult (Some sampleTransfer)
    |> setTransferPhase success
    |> setTransferBackResult (Some sampleTransfer)
    |> setTransferBackPhase success
    |> setTransferAddress usdc
    |> setTransferAmount (js "1000000")
    |> setTransferBackSafeAddress (safeAddress sampleSafe)
    |> setTransferBackAddress usdc
    |> setTransferBackAmount (js "0x10").

(** A token address one character short, and an amount of blanks only. *)
Definition mistypedState : AppState :=
  completedState
    |> setTransferAddress (js " 0xAAAAAAAAAAAAAAAAAAAAAAAAAAAAAAAAAAAAAAA ")
    |> setTransferBackAmount (js "   ").

(** Nothing deployed in this session, the transfer-out form filled in. *)
Definition freshState : AppState :=
  initialState
    |> setTransferBackSafeAddress (safeAddress sampleSafe)
    |> setTransferBackAddress usdc
    |> setTransferBackAmount (js "1000000").

Definition mainnet : Z := 1.

Definition fillTransferOut : list UiEvent :=
  [Change input_safeBackAddress (safeAddress sampleSafe);
   Change input_tokenBackAddress usdc;
   Change input_tokenBackAmount (js "1000000")].

(** Transfer-out is clicked while the deployment is still in flight. *)
Definition impatient : list UiEvent :=
  fillTransferOut ++ [Click deploy; Click transferBack].

(** Each click comes after the previous handler has ended. *)
Definition patient : list UiEvent :=
  fillTransferOut
  ++ [Click deploy; Finish 0%nat; Click permissions; Finish 0%nat;
      Click transferBack].

(** A network client whose [readContract] finds no code at the address,
    and one that fails for another reason. *)
Definition zeroData : Thrown :=
  ThrownError
    {| err_name := js "ContractFunctionExecutionError";
       err_message := js "The contract function returned no data (0x)." |}.

Definition timedOut : Thrown :=
  ThrownError {| err_name := js "TimeoutError";
                 err_message := js "The request took too long to respond." |}.

Definition emptyClient : SingleStep.PublicClient unit unit Z :=
  {| SingleStep.readContract := fun _ w => (w, Rejected zeroData) |}.

Definition slowClient : SingleStep.PublicClient unit unit Z :=
  {| SingleStep.readContract := fun _ w => (w, Rejected timedOut) |}.

(** A Node-like [process] that already carries an RPC endpoint. *)
Definition nodeProcess : ProcessEnv.Process :=
  {| ProcessEnv.env :=
       <[js "HOME" := Some (js "/root")]>
         (<[js "RPC_URL" := Some (js "https://mainnet.base.org")]> ∅) |}.

Definition viteEnv : ProcessEnv.ImportMetaEnv :=
  {| ProcessEnv.VITE_WALLETCONNECT_PROJECT_ID := None;
     ProcessEnv.VITE_SAFE_RPC_URL := Some (js "https://rpc.example");
     ProcessEnv.VITE_SAFE_PRIVATE_KEY := Some (js "0xabc") |}.

End Scenario.

(** ** Reading more of a trace *)

Module Trace.
Import MultiStep.

(** The session and chain id of the last resolution of the run. *)
Fixpoint last_resolved (tr : list Event) : option (handle * option Z) :=
  match tr with
  | [] => None
  | e :: tr' =>
      match last_resolved tr' with
      | Some x => Some x
      | None =>
          match e with
          | EvResolved h id => Some (h, id)
          | _ => None
          end
      end
  end.

Definition is_getChainId (c : Call) : bool :=
  match c with CGetChainId _ => true | _ => false end.

Definition is_session_switch (c : Call) : bool :=
  match c with CSwitchChain _ _ => true | _ => false end.

Definition is_provider_switch (c : Call) : bool :=
  match c with CSwitchChainAsync _ => true | _ => false end.

Definition is_refetch (c : Call) : bool :=
  match c with CRefetchWalletClient => true | _ => false end.

Definition is_constructor (c : Call) : bool :=
  match c with CNewOnboardingClient _ _ => true | _ => false end.

(** A method of the onboarding client. *)
Definition is_method (c : Call) : bool :=
  is_sdk c && negb (is_constructor c).

(** How many calls of the kind [p] the run made. *)
Fixpoint count_calls (p : Call -> bool) (tr : list Event) : nat :=
  match tr with
  | [] => 0
  | EvCall c _ :: tr' => (if p c then 1 else 0) + count_calls p tr'
  | _ :: tr' => count_calls p tr'
  end.

(** Some call of the kind [p] resolved. *)
Definition resolved_call (p : Call -> bool) (tr : list Event) : bool :=
  existsb (fun e => match e with EvCall c None => p c | _ => false end) tr.

(** The run ended with an SDK method that resolved. *)
Definition ends_with_resolved_method (tr : list Event) : bool :=
  match last tr with
  | Some (EvCall c None) => is_method c
  | _ => false
  end.

End Trace.

(** ** What the multi-step page shows *)

Module View.
Import MultiStep.

Definition result_present (s : Step) (st : AppState) : bool :=
  match s with
  | deploy => bool_decide (is_Some (safeResult st))
  | permissions => bool_decide (is_Some (permissionsResult st))
  | transfer => bool_decide (is_Some (transferResult st))
  | transferBack => bool_decide (is_Some (transferBackResult st))
  end.

(** [{phase === 'success' && result && <div className="status ...">}] *)
Definition success_panel (s : Step) (st : AppState) : bool :=
  bool_decide (phase_of s st = success) && result_present s st.

(** [{phase === 'error' && error && <p className="app__error">{error}</p>}]:
    the text of the paragraph, if it is rendered. *)
Definition error_paragraph (s : Step) (st : AppState) : option jsstring :=
  if bool_decide (phase_of s st = error) then
    match error_of s st with
    | Some m => if truthy m then Some m else None
    | None => None
    end
  else None.

(** The five form inputs. *)
Definition form_inputs (st : AppState) : list jsstring :=
  [transferBackSafeAddress st; transferAddress st; transferAmount st;
   transferBackAddress st; transferBackAmount st].

(** Each step that shows phase [success] has a result to show, and each
    step in phase [error] has a message. *)
Definition outcomes_backed (st : AppState) : Prop :=
  forall s,
    (phase_of s st = success -> result_present s st = true)
    /\ (phase_of s st = error -> is_Some (error_of s st)).

(** A stored deploy result belongs to a deployment that succeeded, and
    while a deployment runs none is stored. *)
Definition deploy_result_current (st : AppState) : Prop :=
  (is_Some (safeResult st) -> deployPhase st = success)
  /\ (activeStep st = Some deploy -> safeResult st = None).

(** What an SDK call of step [s] may be, for a handler started with hooks
    [hk] on state [st], in a run with trace [tr]. *)
Definition sdk_call_vetted (s : Step) (hk : Hooks) (st : AppState)
  (tr : list Event) (c : Call) : Prop :=
  match c with
  | CNewOnboardingClient h pc =>
      publicClient hk = Some pc /\ In (EvResolved h (Some base_id)) tr
  | CDeploySafe => s = deploy
  | CSetPermissions safe multiSend =>
      s = permissions
      /\ exists result,
          safeResult st = Some result /\ safe = safeAddress result
          /\ multiSend = multiSendCallOnly result /\ safe <> []
  | CTransferAssetFromCallerToSafe safe asset amount =>
      s = transfer
      /\ (exists result,
            safeResult st = Some result /\ safe = safeAddress result)
      /\ asset = trim (transferAddress st) /\ hex_shaped asset
      /\ amount = trim (transferAmount st) /\ amount <> []
  | CTransferAssetFromSafeToSafeOwner safe asset amount =>
      s = transferBack
      /\ safe = trim (transferBackSafeAddress st) /\ hex_shaped safe
      /\ asset = trim (transferBackAddress st) /\ hex_shaped asset
      /\ amount = trim (transferBackAmount st) /\ amount <> []
  | _ => True
  end.

End View.

(** ** The connection section *)

Module Connection.

Record Connector := {
  conn_id : jsstring;
  conn_name : jsstring;
  conn_ready : bool
}.

Inductive ConnectStatus :=
| connect_idle
| connect_pending
| connect_success
| connect_error.

#[global] Instance ConnectStatus_eq_dec : EqDecision ConnectStatus.
Proof. solve_decision. Defined.

(** [===] on two strings. *)
Definition str_eqb (a b : jsstring) : bool := bool_decide (a = b).

(** [handleConnect]: what [connect] is called with, if it is called. *)
Definition handleConnect (connectors : list Connector)
  (connectorId : jsstring) : option (Connector * Z) :=
  match List.find (fun item => str_eqb (conn_id item) connectorId)
                  connectors with
  | None => None
  | Some connector => Some (connector, MultiStep.base_id)
  end.

Section Buttons.

(** [String.prototype.toLowerCase], which follows the Unicode case
    mappings; what is proved below holds whatever it returns. *)
Variable toLowerCase : jsstring -> jsstring.

Definition isWalletConnect (connector : Connector) : bool :=
  str_eqb (conn_id connector) (js "walletConnect").

Definition isMetaMask (connector : Connector) : bool :=
  str_eqb (conn_id connector) (js "metaMask")
  || str_eqb (conn_id connector) (js "metaMaskSDK")
  || str_eqb (conn_id connector) (js "injected")
  || includes (toLowerCase (conn_name connector)) (js "metamask").

Definition allowUnready (connector : Connector) : bool :=
  isWalletConnect connector || isMetaMask connector.

(** The [disabled] attribute of the connector's button. *)
Definition connector_disabled (connectStatus : ConnectStatus)
  (connector : Connector) : bool :=
  bool_decide (connectStatus = connect_pending)
  || negb (conn_ready connector) && negb (allowUnready connector).

(** Whether the hint 'WalletConnect and MetaMask buttons stay enabled even
    while the extension or QR modal is loading.' is rendered. *)
Definition loading_hint (connectors : list Connector) : bool :=
  existsb (fun connector =>
             (isWalletConnect connector || isMetaMask connector)
             && negb (conn_ready connector))
          connectors.

End Buttons.

End Connection.

(** ** The single-step onboarding UI *)

Module Onboard.
Import MultiStep.

(** The SDK's result record, with the fields the page shows. *)
Record DeploymentResult := {
  deployed_safeAddress : jsstring;
  deployed_rolesAddress : jsstring;
  deployed_predictedProxyAddress : jsstring
}.

Record OnboardState := {
  onboardingPhase : StepPhase;
  onboardingError : option jsstring;
  deploymentResult : option DeploymentResult
}.

Definition setOnboardingPhase (v : StepPhase) (st : OnboardState)
  : OnboardState :=
  {| onboardingPhase := v; onboardingError := onboardingError st;
     deploymentResult := deploymentResult st |}.

Definition setOnboardingError (v : option jsstring) (st : OnboardState)
  : OnboardState :=
  {| onboardingPhase := onboardingPhase st; onboardingError := v;
     deploymentResult := deploymentResult st |}.

Definition setDeploymentResult (v : option DeploymentResult)
  (st : OnboardState) : OnboardState :=
  {| onboardingPhase := onboardingPhase st;
     onboardingError := onboardingError st; deploymentResult := v |}.

Definition initialOnboardState : OnboardState :=
  {| onboardingPhase := idle; onboardingError := None;
     deploymentResult := None |}.

(** The hooks of one render: those of the multi-step page (here
    [publicClient] is the wrapped client) and the connected [address]. *)
Record OnboardHooks := {
  wagmi : Hooks;
  address : option jsstring
}.

Definition msg_unavailable : jsstring :=
  js "Wallet or public client not available.".
Definition msg_onboarding_failed : jsstring :=
  js "Onboarding failed. Please try again.".

(** A handler suspended inside its [try] block. *)
Record OnboardPending := {
  pending_hooks : OnboardHooks;
  pending_wallet : handle;
  pending_public : handle
}.

Section Handler.

Context {W : Type} (O : Oracle W).

(** [new OnboardingClient({ walletClient: baseBoundWalletClient, ... })
    .onboardClient({ clientAddress: address })], for the base-bound copy of
    the session and its account: the constructor and the method are both
    external and both inside the [try], so they are one answer of the
    world. *)
Variable onboardClient :
  handle -> jsstring -> handle -> option jsstring ->
  W -> W * Settled DeploymentResult.

(** A call that leaves no entry in the trace. *)
Definition external {A} (f : W -> W * Settled A) : Async A :=
  fun s => let (w', r) := f (fst s) in ((w', snd s), r).

(** The first part of the [try] block of [handleOnboard], up to the
    account check; its [resolveChainId] has the text of the one in the
    multi-step page. *)
Definition negotiate (hk : Hooks) (walletClient : handle)
  : Async (handle * jsstring) :=
  let* currentChainId := resolveChainId O walletClient in
  let* activeWalletClient :=
    if not_base currentChainId then
      let* has_switch := read (has_switchChain O walletClient) in
      let* switched :=
        if has_switch then
          try_catch
            (await (CSwitchChain walletClient base_id)
                   (switchChain O walletClient base_id)
             >> ret true)
            (fun err => emit (EvWarn err) >> ret false)
        else ret false in
      let* switched :=
        if negb switched && switchChainAsync_is_function hk then
          await (CSwitchChainAsync base_id) (switchChainAsync O base_id)
          >> ret true
        else ret switched in
      let* activeWalletClient :=
        if switched && refetchWalletClient_is_function hk then
          let* refreshed :=
            await CRefetchWalletClient (refetchWalletClient O) in
          match refreshed with
          | Some data => ret data
          | None => ret walletClient
          end
        else ret walletClient in
      let* currentChainId := resolveChainId O activeWalletClient in
      if not_base currentChainId
      then throw (ThrownError (new_Error msg_switch_network))
      else ret activeWalletClient
    else ret walletClient in
  let* account := read (account_of O activeWalletClient) in
  match account with
  | None => throw (ThrownError (new_Error msg_no_account))
  | Some a => ret (activeWalletClient, a)
  end.

Definition handleOnboard_start (hk : OnboardHooks) (st : OnboardState)
  : OnboardState * option OnboardPending :=
  match walletClient (wagmi hk), publicClient (wagmi hk) with
  | Some wc, Some pc =>
      (st |> setOnboardingPhase running
          |> setOnboardingError None
          |> setDeploymentResult None,
       Some {| pending_hooks := hk; pending_wallet := wc;
               pending_public := pc |})
  | _, _ =>
      (st |> setOnboardingError (Some msg_unavailable)
          |> setOnboardingPhase error, None)
  end.

Definition handleOnboard_try (p : OnboardPending)
  : Async DeploymentResult :=
  let* bound := negotiate (wagmi (pending_hooks p)) (pending_wallet p) in
  external (onboardClient (fst bound) (snd bound) (pending_public p)
                          (address (pending_hooks p))).

Definition handleOnboard_settle (r : Settled DeploymentResult)
  (st : OnboardState) : OnboardState :=
  match r with
  | Resolved result =>
      st |> setDeploymentResult (Some result) |> setOnboardingPhase success
  | Rejected err =>
      st |> setOnboardingError
              (Some (caught_message err msg_onboarding_failed))
         |> setOnboardingPhase error
  end.

(** The session of what [negotiate] settles to. *)
Definition session_of (r : Settled (handle * jsstring)) : Settled handle :=
  match r with
  | Resolved bound => Resolved (fst bound)
  | Rejected t => Rejected t
  end.

(** [disabled={!isConnected || onboardingPhase === 'running' || !isOnBase}] *)
Definition onboard_disabled (hk : OnboardHooks) (st : OnboardState) : bool :=
  negb (isConnected (wagmi hk))
  || bool_decide (onboardingPhase st = running)
  || negb (chainId (wagmi hk) =? base_id).

Record OnboardUI := {
  ob_state : OnboardState;
  ob_hooks : OnboardHooks;
  ob_pending : list OnboardPending;
  ob_world : W * list Event
}.

Inductive OnboardEvent :=
| ClickOnboard
| FinishOnboard (i : nat)
| RenderOnboard (hk : OnboardHooks).

(** One turn of the event loop of the single-step page. *)
Definition onboard_step (e : OnboardEvent) (ui : OnboardUI)
  : option OnboardUI :=
  match e with
  | ClickOnboard =>
      if onboard_disabled (ob_hooks ui) (ob_state ui) then None
      else
        let (st', p) := handleOnboard_start (ob_hooks ui) (ob_state ui) in
        Some {| ob_state := st'; ob_hooks := ob_hooks ui;
                ob_pending := ob_pending ui ++ option_list p;
                ob_world := ob_world ui |}
  | FinishOnboard i =>
      match ob_pending ui !! i with
      | None => None
      | Some p =>
          let (w', r) := handleOnboard_try p (ob_world ui) in
          Some {| ob_state := handleOnboard_settle r (ob_state ui);
                  ob_hooks := ob_hooks ui;
                  ob_pending := delete i (ob_pending ui);
                  ob_world := w' |}
      end
  | RenderOnboard hk =>
      Some {| ob_state := ob_state ui; ob_hooks := hk;
              ob_pending := ob_pending ui; ob_world := ob_world ui |}
  end.

Fixpoint onboard_run (es : list OnboardEvent) (ui : OnboardUI)
  : option OnboardUI :=
  match es with
  | [] => Some ui
  | e :: es' =>
      match onboard_step e ui with
      | Some ui' => onboard_run es' ui'
      | None => None
      end
  end.

Definition onboard_init (hk : OnboardHooks) (w : W) : OnboardUI :=
  {| ob_state := initialOnboardState; ob_hooks := hk;
     ob_pending := []; ob_world := (w, []) |}.

(** At most one handler is in flight, exactly while the phase is
    [running]; no result is held while it runs, and one is held whenever
    the phase is [success]. *)
Definition single_flight (ui : OnboardUI) : Prop :=
  (ob_pending ui = [] \/ exists p, ob_pending ui = [p])
  /\ (onboardingPhase (ob_state ui) = running <-> ob_pending ui <> [])
  /\ (onboardingPhase (ob_state ui) = running ->
      deploymentResult (ob_state ui) = None)
  /\ (onboardingPhase (ob_state ui) = success ->
      is_Some (deploymentResult (ob_state ui))).

End Handler.

Arguments OnboardUI : clear implicits.

End Onboard.

(** ** More concrete inputs *)

Module Scenario2.
Import MultiStep Connection.

(** Lower-casing of the letters A to Z, which is what [toLowerCase] does
    on strings of ASCII characters. *)
Definition asciiLower (s : jsstring) : jsstring :=
  (fun c => if (65 <=? c)%N && (c <=? 90)%N then (c + 32)%N else c) <$> s.

Definition metaMaskSDK : Connector :=
  {| conn_id := js "metaMaskSDK"; conn_name := js "MetaMask";
     conn_ready := false |}.

Definition walletConnect : Connector :=
  {| conn_id := js "walletConnect"; conn_name := js "WalletConnect";
     conn_ready := true |}.

Definition ledger : Connector :=
  {| conn_id := js "ledger"; conn_name := js "Ledger"; conn_ready := false |}.

Definition offered : list Connector := [metaMaskSDK; walletConnect; ledger].

(** A wallet on the wrong network whose session has no account. *)
Definition accountless : Scenario.Script :=
  {| Scenario.exposes_chain := false; Scenario.moves_anyway := false;
     Scenario.session_switch := Some (Resolved tt);
     Scenario.provider_switch := Resolved tt;
     Scenario.refreshed_session := Some 2%nat;
     Scenario.active_account := None |}.

(** A page with no wallet client yet. *)
Definition noWallet : Hooks :=
  {| isConnected := true; chainId := base_id; publicClient := Some 7%nat;
     walletClient := None; switchChainAsync_is_function := true;
     refetchWalletClient_is_function := true |}.

Definition deployment : Onboard.DeploymentResult :=
  {| Onboard.deployed_safeAddress :=
       js "0x5afe5afe5afe5afe5afe5afe5afe5afe5afe5afe";
     Onboard.deployed_rolesAddress :=
       js "0x4011e54011e54011e54011e54011e54011e54011";
     Onboard.deployed_predictedProxyAddress :=
       js "0x9409994099940999409994099940999409994099" |}.

Definition onboardSdk (_ : handle) (_ : jsstring) (_ : handle)
  (_ : option jsstring) (w : Z) : Z * Settled Onboard.DeploymentResult :=
  (w, Resolved deployment).

Definition onboardHooks : Onboard.OnboardHooks :=
  {| Onboard.wagmi := Scenario.readyHooks;
     Onboard.address := Some Scenario.owner |}.

(** Onboard twice, each click after the previous run has ended. *)
Definition onboardTwice : list Onboard.OnboardEvent :=
  [Onboard.ClickOnboard; Onboard.FinishOnboard 0%nat;
   Onboard.ClickOnboard].

(** A full pass through the four steps with an impatient second deploy. *)
Definition busy : list UiEvent :=
  Scenario.fillTransferOut
  ++ [Click deploy; Click transferBack; Click deploy; Finish 0%nat;
      Finish 0%nat; Finish 0%nat].

End Scenario2.

(** * Properties *)

(** ** Strings *)

Lemma startsWith_prefix (s p : jsstring) :
  startsWith s p = true <-> exists rest, s = p ++ rest.
Proof.
  revert s. induction p as [|c p IH]; intros s; simpl.
  - split; [intros _; by exists s | done].
  - destruct s as [|d s].
    + split; [done | intros [rest H]; discriminate H].
    + rewrite andb_true_iff, N.eqb_eq, IH. split.
      * intros [-> [rest ->]]. by exists rest.
      * intros [rest H]. injection H as -> ->. eauto.
Qed.

Lemma includes_substring (s p : jsstring) :
  includes s p = true <-> exists before after, s = before ++ p ++ after.
Proof.
  induction s as [|d s IH]; simpl.
  - rewrite orb_false_r, startsWith_prefix. split.
    + intros [rest H]. by exists [], rest.
    + intros (before & after & H). destruct before; [eauto|discriminate H].
  - rewrite orb_true_iff, startsWith_prefix, IH. split.
    + intros [[rest H] | (before & after & ->)].
      * by exists [], rest.
      * by exists (d :: before), after.
    + intros (before & after & H). destruct before as [|b before].
      * left. by exists after.
      * right. injection H as -> ->. eauto.
Qed.

Lemma trimStart_no_leading_space (s : jsstring) :
  match trimStart s with
  | c :: _ => is_js_space c = false
  | [] => True
  end.
Proof.
  induction s as [|c s IH]; simpl; [done|].
  destruct (is_js_space c) eqn:E; [done | exact E].
Qed.

(** ** The process-env polyfill *)

Section PolyfillProperties.
Import ProcessEnv.

Lemma polyfill_lookup_other (g : option Process) (meta : ImportMetaEnv)
  (k : jsstring) :
  k <> RPC_URL -> k <> PRIVATE_KEY ->
  env (polyfill g meta) !! k = previous_env g !! k.
Proof.
  intros H1 H2. unfold polyfill, previous_env. simpl.
  rewrite lookup_insert_ne by done. rewrite lookup_insert_ne by done.
  by destruct g.
Qed.

(** C10.  After the polyfill has run, [process.env.RPC_URL] and
    [process.env.PRIVATE_KEY] hold strings: the value that was there
    before if there was one, else the value of [VITE_SAFE_RPC_URL]
    (respectively [VITE_SAFE_PRIVATE_KEY]) if it is set, else the empty
    string; every other key of the earlier [process.env] reads as it did
    before, and no other key appears. *)
Theorem polyfill_env_precedence (g : option Process) (meta : ImportMetaEnv) :
  env (polyfill g meta) !! RPC_URL =
    Some (Some (match prop (previous_env g) RPC_URL with
                | Some existing => existing
                | None =>
                    match VITE_SAFE_RPC_URL meta with
                    | Some vite => vite
                    | None => []
                    end
                end))
  /\ env (polyfill g meta) !! PRIVATE_KEY =
    Some (Some (match prop (previous_env g) PRIVATE_KEY with
                | Some existing => existing
                | None =>
                    match VITE_SAFE_PRIVATE_KEY meta with
                    | Some vite => vite
                    | None => []
                    end
                end))
  /\ forall k : jsstring,
      k <> RPC_URL -> k <> PRIVATE_KEY ->
      env (polyfill g meta) !! k = previous_env g !! k.
Proof.
  split; [|split].
  - unfold polyfill. simpl. rewrite lookup_insert_ne by done.
    rewrite lookup_insert_eq. unfold or_empty, nullish, previous_env.
    destruct g; simpl; [by destruct (prop _ _) | done].
  - unfold polyfill. simpl. rewrite lookup_insert_eq.
    unfold or_empty, nullish, previous_env.
    destruct g; simpl; [by destruct (prop _ _) | done].
  - apply polyfill_lookup_other.
Qed.

End PolyfillProperties.

Lemma polyfill_env_precedence_witness :
  ProcessEnv.env (ProcessEnv.polyfill (Some Scenario.nodeProcess)
                    Scenario.viteEnv) !! js "HOME"
  = Some (Some (js "/root")).
Proof.
  destruct (polyfill_env_precedence (Some Scenario.nodeProcess)
              Scenario.viteEnv) as (_ & _ & Hother).
  rewrite (Hother (js "HOME")); [| discriminate | discriminate].
  apply lookup_insert_eq.
Defined.

(** ** The wrapped [readContract] *)

Section ReadContractProperties.
Import SingleStep.

Context {World Args Res : Type}.

(** C9.  The [readContract] of the wrapped client returns what the
    underlying [readContract] resolves to; when that one rejects and the
    message of the rejection contains 'returned no data', it rejects with an
    [Error] named 'ContractFunctionZeroDataError' whose message is the
    original one behind the prefix 'ContractFunctionZeroDataError: '; any
    other rejection is passed on as it is. *)
Theorem wrapped_readContract_spec
  (target : PublicClient World Args Res) (args : Args) (w : World) :
  exists client,
    publicClient (Some target) = Some client /\
    match readContract target args w with
    | (w', Resolved v) => readContract client args w = (w', Resolved v)
    | (w', Rejected err) =>
        (contains (message_of err) (js "returned no data") ->
         readContract client args w =
           (w', Rejected (ThrownError
              {| err_name := js "ContractFunctionZeroDataError";
                 err_message :=
                   js "ContractFunctionZeroDataError: " ++ message_of err |})))
        /\ (~ contains (message_of err) (js "returned no data") ->
            readContract client args w = (w', Rejected err))
    end.
Proof.
  eexists. split; [reflexivity|]. simpl. unfold wrapped_readContract.
  destruct (readContract target args w) as [w' [v|err]]; [done|].
  simpl. destruct (includes (message_of err) NoData) eqn:E.
  - split; [done|]. intros Hno. destruct Hno.
    by apply includes_substring.
  - split; [|done]. intros Hyes. apply includes_substring in Hyes.
    unfold NoData in E. congruence.
Qed.

End ReadContractProperties.

Lemma wrapped_readContract_spec_witness :
  exists client,
    SingleStep.publicClient (Some Scenario.emptyClient) = Some client /\
    SingleStep.readContract client tt tt =
      (tt, Rejected (ThrownError
         {| err_name := js "ContractFunctionZeroDataError";
            err_message :=
              js "ContractFunctionZeroDataError: The contract function returned no data (0x)." |}))
    /\ exists client',
      SingleStep.publicClient (Some Scenario.slowClient) = Some client' /\
      SingleStep.readContract client' tt tt = (tt, Rejected Scenario.timedOut).
Proof.
  destruct (wrapped_readContract_spec Scenario.emptyClient tt tt)
    as (client & Hclient & Hyes & _).
  exists client. split; [exact Hclient|]. split.
  - apply Hyes. exists (js "The contract function "), (js " (0x).").
    reflexivity.
  - destruct (wrapped_readContract_spec Scenario.slowClient tt tt)
      as (client' & Hclient' & _ & Hno).
    exists client'. split; [exact Hclient'|]. apply Hno.
    intros Hin. apply includes_substring in Hin. discriminate Hin.
Defined.

(** ** The chain-readiness negotiator *)

Ltac async_unfold :=
  unfold MultiStep.bind, MultiStep.ret, MultiStep.throw, MultiStep.read,
    MultiStep.emit, MultiStep.await, MultiStep.try_catch in *;
  simpl in *.

Ltac async_cases :=
  async_unfold; repeat (first [ progress simplify_eq/= | case_match ]).

Section NegotiatorProperties.
Import MultiStep.

Context {W : Type} (O : Oracle W).

(** Resolving the chain id calls nothing but the session's
    [getChainId], and that at most once. *)
Lemma resolveChainId_events (h : handle) (w w1 : W) (tr tr1 : list Event)
  (r : Settled (option Z)) :
  resolveChainId O h (w, tr) = ((w1, tr1), r) ->
  exists evs,
    tr1 = tr ++ evs /\
    forall c rej, In (EvCall c rej) evs -> c = CGetChainId h.
Proof.
  unfold resolveChainId. intros H. async_cases.
  all: rewrite <- ?app_assoc; eexists; (split; [reflexivity|]); simpl.
  all: intros c rej Hin; repeat destruct Hin as [Hin|Hin]; by simplify_eq.
Qed.

(** C7.  On a session whose resolved chain id is already the required one
    and which has an active account, [ensureWalletOnBase] resolves to that
    same session handle; it stops where the chain-id resolution stopped, so
    the run holds no session-level switch, no provider-level switch and no
    refresh of the session. *)
Theorem ensureWalletOnBase_ready_identity
  (hk : Hooks) (wc : handle) (w w1 : W) (tr tr1 : list Event) :
  walletClient hk = Some wc ->
  resolveChainId O wc (w, tr) = ((w1, tr1), Resolved (Some base_id)) ->
  is_Some (account_of O wc w1) ->
  ensureWalletOnBase O hk (w, tr) = ((w1, tr1), Resolved wc)
  /\ exists evs,
      tr1 = tr ++ evs /\
      forall c rej,
        In (EvCall c rej) evs ->
        is_switch c = false /\ c <> CRefetchWalletClient.
Proof.
  intros Hwc Hres [account Haccount]. split.
  - unfold ensureWalletOnBase. rewrite Hwc.
    unfold bind at 1. rewrite Hres. simpl.
    async_unfold. by rewrite Haccount.
  - destruct (resolveChainId_events _ _ _ _ _ _ Hres) as (evs & Htr & Hevs).
    exists evs. split; [exact Htr|].
    intros c rej Hin. by rewrite (Hevs c rej Hin).
Qed.

End NegotiatorProperties.

Lemma ensureWalletOnBase_ready_identity_witness :
  MultiStep.ensureWalletOnBase (Scenario.scripted Scenario.cooperative)
    Scenario.readyHooks (MultiStep.base_id, [])
  = ((MultiStep.base_id,
      [MultiStep.EvCall (MultiStep.CGetChainId 1%nat) None;
       MultiStep.EvResolved 1%nat (Some MultiStep.base_id)]),
     Resolved 1%nat).
Proof.
  apply (ensureWalletOnBase_ready_identity
           (Scenario.scripted Scenario.cooperative) Scenario.readyHooks 1%nat
           MultiStep.base_id MultiStep.base_id []).
  - reflexivity.
  - reflexivity.
  - simpl. by eexists.
Defined.

(** ** Pre-flight checks of the handlers *)

Section PreflightProperties.
Import MultiStep.

Lemma truthy_false (s : jsstring) : truthy s = false <-> s = [].
Proof. by destruct s. Qed.

Lemma bad_address_hex_shaped (a : jsstring) :
  bad_address a = false <-> hex_shaped a.
Proof.
  unfold bad_address, hex_shaped.
  rewrite !orb_false_iff, !negb_false_iff, startsWith_prefix, Nat.eqb_eq.
  split; [tauto|]. intros [[rest ->] Hlen]. by repeat split; eauto.
Qed.

Lemma bad_address_cases (a : jsstring) :
  bad_address a = true <->
  ~ (exists rest, a = js "0x" ++ rest) \/ List.length a <> 42%nat.
Proof.
  destruct (bad_address a) eqn:E.
  - split; [intros _|done].
    destruct (decide (List.length a = 42%nat)) as [Hlen|]; [left|by right].
    intros Hpre. assert (hex_shaped a) as Hs by done.
    apply bad_address_hex_shaped in Hs. congruence.
  - apply bad_address_hex_shaped in E as [Hpre Hlen].
    split; [done|]. intros [?|?]; done.
Qed.

Context {W : Type} (O : Oracle W).

(** C3.  Both transfer handlers stop in their pre-flight checks when the
    trimmed token address is not 0x-prefixed, or is not 42 code units long,
    or the trimmed amount is empty: the step ends at once in phase [error]
    with a validation message, no handler is left suspended, and the world
    and its trace are as before, so neither [ensureWalletOnBase] nor the
    SDK ran.  For transfer-in this is under its guards (network client and
    deploy result present); transfer-out checks the typed Safe address by
    the same rule first. *)
Theorem transfer_preflight_rejects
  (hk : Hooks) (st : AppState) (w : W * list Event) (pc : handle) :
  publicClient hk = Some pc ->
  (forall safe,
     safeResult st = Some safe -> safeAddress safe <> [] ->
     ~ (exists rest, trim (transferAddress st) = js "0x" ++ rest)
     \/ List.length (trim (transferAddress st)) <> 42%nat
     \/ trim (transferAmount st) = [] ->
     exists st' m,
       start transfer hk st = (st', None)
       /\ run_handler O transfer hk st w = (w, st')
       /\ transferPhase st' = error
       /\ transferError st' = Some m
       /\ (m = msg_token_address \/ m = msg_amount))
  /\ (~ (exists rest, trim (transferBackAddress st) = js "0x" ++ rest)
      \/ List.length (trim (transferBackAddress st)) <> 42%nat
      \/ trim (transferBackAmount st) = [] ->
      exists st' m,
        start transferBack hk st = (st', None)
        /\ run_handler O transferBack hk st w = (w, st')
        /\ transferBackPhase st' = error
        /\ transferBackError st' = Some m
        /\ (m = msg_safe_address \/ m = msg_token_address \/ m = msg_amount)).
Proof.
  intros Hpc. split.
  - intros safe Hsafe Haddr Hbad.
    assert (truthy (safeAddress safe) = true) as Htruthy.
    { destruct (safeAddress safe); [done|reflexivity]. }
    assert (bad_address (trim (transferAddress st)) = true
            \/ truthy (trim (transferAmount st)) = false) as Hcheck.
    { rewrite bad_address_cases, truthy_false. tauto. }
    unfold run_handler. simpl. unfold handleTransfer_start.
    rewrite Hpc, Hsafe, Htruthy.
    destruct (bad_address (trim (transferAddress st))) eqn:Ebad.
    + eexists _, _. repeat split; eauto.
    + destruct Hcheck as [?|Hamount]; [done|]. rewrite Hamount. simpl.
      eexists _, _. repeat split; eauto.
  - intros Hbad.
    assert (bad_address (trim (transferBackAddress st)) = true
            \/ truthy (trim (transferBackAmount st)) = false) as Hcheck.
    { rewrite bad_address_cases, truthy_false. tauto. }
    unfold run_handler. simpl. unfold handleTransferBack_start.
    rewrite Hpc.
    destruct (bad_address (trim (transferBackSafeAddress st))).
    { eexists _, _. repeat split; eauto. }
    destruct (bad_address (trim (transferBackAddress st))) eqn:Ebad.
    + eexists _, _. repeat split; eauto.
    + destruct Hcheck as [?|Hamount]; [done|]. rewrite Hamount. simpl.
      eexists _, _. repeat split; eauto.
Qed.

End PreflightProperties.

Lemma transfer_preflight_rejects_witness :
  (exists st' m,
     MultiStep.start MultiStep.transfer Scenario.readyHooks
       Scenario.mistypedState = (st', None)
     /\ MultiStep.run_handler (Scenario.scripted Scenario.cooperative)
          MultiStep.transfer Scenario.readyHooks Scenario.mistypedState
          (Scenario.mainnet, []) = ((Scenario.mainnet, []), st')
     /\ MultiStep.transferPhase st' = MultiStep.error
     /\ MultiStep.transferError st' = Some m
     /\ (m = MultiStep.msg_token_address \/ m = MultiStep.msg_amount))
  /\ (exists st' m,
     MultiStep.start MultiStep.transferBack Scenario.readyHooks
       Scenario.mistypedState = (st', None)
     /\ MultiStep.run_handler (Scenario.scripted Scenario.cooperative)
          MultiStep.transferBack Scenario.readyHooks Scenario.mistypedState
          (Scenario.mainnet, []) = ((Scenario.mainnet, []), st')
     /\ MultiStep.transferBackPhase st' = MultiStep.error
     /\ MultiStep.transferBackError st' = Some m
     /\ (m = MultiStep.msg_safe_address \/ m = MultiStep.msg_token_address
         \/ m = MultiStep.msg_amount)).
Proof.
  destruct (transfer_preflight_rejects
              (Scenario.scripted Scenario.cooperative) Scenario.readyHooks
              Scenario.mistypedState (Scenario.mainnet, []) 7%nat eq_refl)
    as [Hin Hout].
  split.
  - apply (Hin Scenario.sampleSafe); [reflexivity | discriminate |].
    right. left. vm_compute. discriminate.
  - apply Hout. right. right. reflexivity.
Defined.

(** ** What a handler changes *)

Ltac start_cases :=
  unfold MultiStep.start, MultiStep.handleDeploySafe_start,
    MultiStep.handleSetPermissions_start, MultiStep.handleTransfer_start,
    MultiStep.handleTransferBack_start in *;
  repeat (first [ progress simplify_eq/= | case_match ]).

Section StepProperties.
Import MultiStep.

Context {W : Type} (O : Oracle W).

(** A handler only reaches [running] together with a suspended
    continuation for its own step. *)
Lemma start_pending_step (s : Step) (hk : Hooks) (st st' : AppState)
  (p : Pending) :
  start s hk st = (st', Some p) ->
  pending_step p = s /\ phase_of s st' = running
  /\ activeStep st' = Some s.
Proof. intros H. destruct s; start_cases; done. Qed.

Lemma start_rejected (s : Step) (hk : Hooks) (st st' : AppState) :
  start s hk st = (st', None) ->
  phase_of s st' = error /\ activeStep st' = activeStep st
  /\ forall s', s' <> s -> untouched s' st st'.
Proof.
  intros H. destruct s; start_cases; (split; [done|]); (split; [done|]).
  all: intros s' Hs'; by destruct s'.
Qed.

(** The end of a handler writes its own step and empties the marker. *)
Lemma resume_frame (p : Pending) (w w' : W * list Event)
  (st st' : AppState) :
  resume O p w st = (w', st') ->
  activeStep st' = None
  /\ (phase_of (pending_step p) st' = success
      \/ phase_of (pending_step p) st' = error)
  /\ forall s', s' <> pending_step p -> untouched s' st st'.
Proof.
  intros H. destruct p; simpl in *.
  all: case_match; simplify_eq.
  all: match goal with r : Settled _ |- _ => destruct r end; simpl.
  all: (split; [done|]); (split; [by eauto|]).
  all: intros s' Hs'; by destruct s'.
Qed.

(** C6.  Set-permissions and transfer-in are guarded on the deploy result:
    run without one, either handler ends at once in phase [error] with the
    message of the missing prerequisite ('Deploy a Safe first.'; 'Public
    client not available.' when the network client itself is missing),
    leaves no continuation and does not touch the world, so neither the
    negotiator nor the SDK is called.  Transfer-out has no such guard: with
    a network client, for every typed Safe address and token address of the
    0x/42 shape and every non-empty amount it enters [running] with those
    trimmed inputs, whatever the deploy result is. *)
Theorem deploy_result_guard
  (hk : Hooks) (st : AppState) (w : W * list Event) :
  (forall s, s = permissions \/ s = transfer ->
     safeResult st = None ->
     exists st',
       start s hk st = (st', None)
       /\ run_handler O s hk st w = (w, st')
       /\ phase_of s st' = error
       /\ error_of s st' =
            Some (match publicClient hk with
                  | Some _ => msg_deploy_first
                  | None => msg_no_public_client
                  end))
  /\ (forall pc,
        publicClient hk = Some pc ->
        hex_shaped (trim (transferBackSafeAddress st)) ->
        hex_shaped (trim (transferBackAddress st)) ->
        trim (transferBackAmount st) <> [] ->
        exists st',
          start transferBack hk st =
            (st', Some (PTransferBack hk pc
                          (trim (transferBackSafeAddress st))
                          (trim (transferBackAddress st))
                          (trim (transferBackAmount st))))
          /\ phase_of transferBack st' = running
          /\ safeResult st' = safeResult st).
Proof.
  split.
  - intros s [-> | ->] Hnone; unfold run_handler; simpl.
    + unfold handleSetPermissions_start. rewrite Hnone.
      destruct (publicClient hk); by eexists.
    + unfold handleTransfer_start. rewrite Hnone.
      destruct (publicClient hk); by eexists.
  - intros pc Hpc Hsafe Htoken Hamount. simpl.
    unfold handleTransferBack_start. rewrite Hpc.
    apply bad_address_hex_shaped in Hsafe, Htoken. rewrite Hsafe, Htoken.
    destruct (truthy (trim (transferBackAmount st))) eqn:E.
    + by eexists.
    + by apply truthy_false in E.
Qed.

(** C4, as the code has it.  Deploy, on entering [running], puts
    set-permissions, transfer-in and transfer-out back to their initial
    empty state (phase [idle], no result, no error).  Set-permissions, on
    entering [running], does the same for transfer-in and transfer-out and
    leaves deploy's slots alone.  The two transfer handlers change no other
    step's phase, result or error. *)
Theorem downstream_reset (hk : Hooks) (st st' : AppState) (p : Pending) :
  (start deploy hk st = (st', Some p) ->
   cleared permissions st' /\ cleared transfer st'
   /\ cleared transferBack st')
  /\ (start permissions hk st = (st', Some p) ->
      cleared transfer st' /\ cleared transferBack st'
      /\ untouched deploy st st')
  /\ (forall s, s = transfer \/ s = transferBack ->
      start s hk st = (st', Some p) ->
      forall s', s' <> s -> untouched s' st st').
Proof.
  split; [|split].
  - intros H. by start_cases.
  - intros H. by start_cases.
  - intros s [-> | ->] H s' Hs'; start_cases; by destruct s'.
Qed.

(** C5, as the code has it.  Every handler that enters [running] clears
    its own error message.  Deploy also clears its own result, so that none
    is held while it runs; set-permissions, transfer-in and transfer-out
    keep the result slot as it was. *)
Theorem running_clears_own_error
  (s : Step) (hk : Hooks) (st st' : AppState) (p : Pending) :
  start s hk st = (st', Some p) ->
  phase_of s st' = running
  /\ error_of s st' = None
  /\ (s = deploy -> no_result deploy st')
  /\ (s <> deploy -> same_result s st st').
Proof. intros H. destruct s; by start_cases. Qed.

(** C8.  A step that runs to phase [error] leaves the phase and the
    result of every step before it in the pipeline as they were when it
    was triggered (deploy, the first step, has none before it): deploy's
    for a failed set-permissions, and deploy's and set-permissions' (and
    transfer-in's) for a failed transfer. *)
Theorem later_failure_keeps_earlier_results
  (s before : Step) (hk : Hooks) (st st' : AppState)
  (w w' : W * list Event) :
  earlier before s ->
  run_handler O s hk st w = (w', st') ->
  phase_of s st' = error ->
  phase_of before st' = phase_of before st /\ same_result before st st'.
Proof.
  intros Hlt Hrun _. unfold run_handler in Hrun.
  assert (before <> s) as Hne.
  { intros ->. unfold earlier in Hlt. lia. }
  destruct (start s hk st) as [st1 [p|]] eqn:Hstart.
  - destruct (start_pending_step _ _ _ _ _ Hstart) as (Hp & _ & _).
    destruct (resume_frame _ _ _ _ _ Hrun) as (_ & _ & Hframe).
    rewrite Hp in Hframe. destruct (Hframe before Hne) as (-> & Hres & _).
    assert (phase_of before st1 = phase_of before st
            /\ same_result before st st1) as [-> Hres1].
    { clear Hrun Hframe Hres.
      destruct s, before; unfold earlier in Hlt; simpl in Hlt; try lia.
      all: by start_cases. }
    split; [done|]. destruct before; simpl in *; congruence.
  - simplify_eq.
    destruct (start_rejected _ _ _ _ Hstart) as (_ & _ & Hframe).
    by destruct (Hframe before Hne) as (? & ? & _).
Qed.

End StepProperties.

Lemma deploy_result_guard_witness :
  (exists st',
     MultiStep.start MultiStep.permissions Scenario.readyHooks
       Scenario.freshState = (st', None)
     /\ MultiStep.run_handler (Scenario.scripted Scenario.cooperative)
          MultiStep.permissions Scenario.readyHooks Scenario.freshState
          (Scenario.mainnet, []) = ((Scenario.mainnet, []), st')
     /\ MultiStep.permissionsPhase st' = MultiStep.error
     /\ MultiStep.permissionsError st' = Some MultiStep.msg_deploy_first)
  /\ (exists st',
     MultiStep.start MultiStep.transferBack Scenario.readyHooks
       Scenario.freshState
     = (st', Some (MultiStep.PTransferBack Scenario.readyHooks 7%nat
                     (MultiStep.safeAddress Scenario.sampleSafe)
                     Scenario.usdc (js "1000000")))
     /\ MultiStep.transferBackPhase st' = MultiStep.running
     /\ MultiStep.safeResult st' = None).
Proof.
  destruct (deploy_result_guard (Scenario.scripted Scenario.cooperative)
              Scenario.readyHooks Scenario.freshState (Scenario.mainnet, []))
    as [Hguarded Hfree].
  split.
  - apply (Hguarded MultiStep.permissions); [by left | reflexivity].
  - apply (Hfree 7%nat); [reflexivity | | | discriminate].
    + split; [by eexists | reflexivity].
    + split; [by eexists | reflexivity].
Defined.

(** C4 fails as stated: set-permissions, which is not deploy, resets the
    two transfer steps when it enters [running]. *)
Lemma set_permissions_resets_transfers :
  (exists st' p,
     MultiStep.start MultiStep.permissions Scenario.readyHooks
       Scenario.completedState = (st', Some p)
     /\ MultiStep.transferPhase Scenario.completedState = MultiStep.success
     /\ MultiStep.transferPhase st' = MultiStep.idle
     /\ MultiStep.transferResult Scenario.completedState
        = Some Scenario.sampleTransfer
     /\ MultiStep.transferResult st' = None)
  /\ ~ (forall s s' hk st st' p,
          s <> MultiStep.deploy -> s' <> s ->
          MultiStep.start s hk st = (st', Some p) ->
          MultiStep.untouched s' st st').
Proof.
  split.
  - by eexists _, _.
  - intros Hclaim.
    destruct (Hclaim MultiStep.permissions MultiStep.transfer
                Scenario.readyHooks Scenario.completedState _ _
                ltac:(discriminate) ltac:(discriminate) eq_refl)
      as [Hphase _].
    discriminate Hphase.
Qed.

Lemma downstream_reset_witness :
  (MultiStep.cleared MultiStep.permissions
     (MultiStep.start MultiStep.deploy Scenario.readyHooks
        Scenario.completedState).1
   /\ MultiStep.cleared MultiStep.transfer
     (MultiStep.start MultiStep.deploy Scenario.readyHooks
        Scenario.completedState).1
   /\ MultiStep.cleared MultiStep.transferBack
     (MultiStep.start MultiStep.deploy Scenario.readyHooks
        Scenario.completedState).1)
  /\ (MultiStep.cleared MultiStep.transfer
        (MultiStep.start MultiStep.permissions Scenario.readyHooks
           Scenario.completedState).1
      /\ MultiStep.cleared MultiStep.transferBack
        (MultiStep.start MultiStep.permissions Scenario.readyHooks
           Scenario.completedState).1
      /\ MultiStep.untouched MultiStep.deploy Scenario.completedState
        (MultiStep.start MultiStep.permissions Scenario.readyHooks
           Scenario.completedState).1)
  /\ MultiStep.untouched MultiStep.permissions Scenario.completedState
       (MultiStep.start MultiStep.transfer Scenario.readyHooks
          Scenario.completedState).1.
Proof.
  split; [|split].
  - apply (proj1 (downstream_reset Scenario.readyHooks
                    Scenario.completedState _
                    (MultiStep.PDeploy Scenario.readyHooks 7%nat))).
    reflexivity.
  - apply (proj1 (proj2 (downstream_reset Scenario.readyHooks
                    Scenario.completedState _
                    (MultiStep.PPermissions Scenario.readyHooks 7%nat
                       Scenario.sampleSafe)))).
    reflexivity.
  - apply (proj2 (proj2 (downstream_reset Scenario.readyHooks
                    Scenario.completedState _
                    (MultiStep.PTransfer Scenario.readyHooks 7%nat
                       (MultiStep.safeAddress Scenario.sampleSafe)
                       Scenario.usdc (js "1000000"))))
             MultiStep.transfer); [by left | reflexivity | discriminate].
Defined.

(** C5 fails as stated: a second run of set-permissions enters [running]
    with the result of the first run still in its slot. *)
Lemma set_permissions_keeps_own_result :
  (exists st' p,
     MultiStep.start MultiStep.permissions Scenario.readyHooks
       Scenario.completedState = (st', Some p)
     /\ MultiStep.permissionsPhase st' = MultiStep.running
     /\ MultiStep.permissionsResult st' = Some Scenario.samplePermissions)
  /\ ~ (forall s hk st st' p,
          MultiStep.start s hk st = (st', Some p) ->
          MultiStep.error_of s st' = None /\ MultiStep.no_result s st').
Proof.
  split.
  - by eexists _, _.
  - intros Hclaim.
    destruct (Hclaim MultiStep.permissions Scenario.readyHooks
                Scenario.completedState _ _ eq_refl) as [_ Hnone].
    discriminate Hnone.
Qed.

Lemma running_clears_own_error_witness :
  MultiStep.permissionsPhase
    (MultiStep.start MultiStep.permissions Scenario.readyHooks
       (MultiStep.setPermissionsError (Some MultiStep.msg_permissions_failed)
          Scenario.completedState)).1 = MultiStep.running
  /\ MultiStep.permissionsError
    (MultiStep.start MultiStep.permissions Scenario.readyHooks
       (MultiStep.setPermissionsError (Some MultiStep.msg_permissions_failed)
          Scenario.completedState)).1 = None.
Proof.
  destruct (running_clears_own_error MultiStep.permissions
              Scenario.readyHooks
              (MultiStep.setPermissionsError
                 (Some MultiStep.msg_permissions_failed)
                 Scenario.completedState) _
              (MultiStep.PPermissions Scenario.readyHooks 7%nat
                 Scenario.sampleSafe) eq_refl) as (Hphase & Herror & _).
  by split.
Defined.

Lemma later_failure_keeps_earlier_results_witness :
  MultiStep.permissionsPhase
    (MultiStep.run_handler (Scenario.scripted Scenario.failing_session)
       MultiStep.transferBack Scenario.noProviderSwitch
       Scenario.completedState (Scenario.mainnet, [])).2
  = MultiStep.success
  /\ MultiStep.permissionsResult
    (MultiStep.run_handler (Scenario.scripted Scenario.failing_session)
       MultiStep.transferBack Scenario.noProviderSwitch
       Scenario.completedState (Scenario.mainnet, [])).2
  = Some Scenario.samplePermissions.
Proof.
  set (r := MultiStep.run_handler _ _ _ _ _).
  apply (later_failure_keeps_earlier_results
           (Scenario.scripted Scenario.failing_session)
           MultiStep.transferBack MultiStep.permissions
           Scenario.noProviderSwitch Scenario.completedState r.2
           (Scenario.mainnet, []) r.1).
  - unfold MultiStep.earlier. simpl. lia.
  - apply surjective_pairing.
  - reflexivity.
Defined.

(** ** One step at a time *)

Section SerializationProperties.
Import MultiStep.

Context {W : Type} (O : Oracle W).

(** Entering [running] puts every other step to [idle] or leaves its
    phase alone. *)
Lemma start_other_phases (s : Step) (hk : Hooks) (st st' : AppState)
  (p : Pending) :
  start s hk st = (st', Some p) ->
  forall s', s' <> s ->
    phase_of s' st' = idle \/ phase_of s' st' = phase_of s' st.
Proof.
  intros H s' Hs'. destruct s; start_cases; destruct s'; auto; done.
Qed.

Lemma onChange_keeps_steps (f : Field) (v : jsstring) (st : AppState) :
  activeStep (onChange f v st) = activeStep st
  /\ forall s, phase_of s (onChange f v st) = phase_of s st.
Proof. destruct f; (split; [done|]); by intros []. Qed.

Lemma quiet_step (e : UiEvent) (ui ui' : UI W) :
  quiet ui ->
  match e with
  | Click _ => activeStep (ui_state ui) = None
  | _ => True
  end ->
  ui_step O e ui = Some ui' ->
  quiet ui'.
Proof.
  unfold quiet. intros Hq Hclick Hstep. destruct e as [s|i|hk|f v]; simpl in *.
  - rewrite Hclick in Hq. destruct Hq as [Hpending Hnone].
    destruct (disabled s (ui_hooks ui) (ui_state ui)); [done|].
    destruct (start s (ui_hooks ui) (ui_state ui)) as [st' [p|]] eqn:Hstart;
      simplify_eq/=.
    + destruct (start_pending_step _ _ _ _ _ Hstart) as (Hp & Hrun & ->).
      rewrite Hpending. split; [by eexists|].
      intros s' Hs'. destruct (decide (s' = s)) as [|Hne]; [done|].
      destruct (start_other_phases _ _ _ _ _ Hstart s' Hne) as [Hidle|Hsame].
      * congruence.
      * rewrite Hsame in Hs'. by destruct (Hnone s').
    + destruct (start_rejected _ _ _ _ Hstart) as (Herr & -> & Hframe).
      rewrite Hclick, Hpending. split; [done|].
      intros s' Hs'. destruct (decide (s' = s)) as [->|Hne]; [congruence|].
      destruct (Hframe s' Hne) as (Hsame & _). rewrite Hsame in Hs'.
      by destruct (Hnone s').
  - destruct (ui_pending ui !! i) as [p|] eqn:Hlookup; [|done].
    destruct (resume O p (ui_world ui) (ui_state ui)) as [w' st'] eqn:Hres.
    simplify_eq/=.
    destruct (resume_frame _ _ _ _ _ _ Hres) as (-> & Hdone & Hframe).
    destruct (activeStep (ui_state ui)) as [a|].
    + destruct Hq as [(p' & Hpending & Hp') Honly].
      rewrite Hpending in Hlookup |- *.
      destruct i as [|i]; simplify_eq/=. split; [done|].
      intros s Hs. destruct (decide (s = pending_step p)) as [->|Hne].
      * destruct Hdone; congruence.
      * destruct (Hframe s Hne) as (Hsame & _). rewrite Hsame in Hs.
        by apply Honly in Hs.
    + destruct Hq as [Hpending _]. by rewrite Hpending in Hlookup.
  - by simplify_eq/=.
  - simplify_eq/=.
    destruct (onChange_keeps_steps f v (ui_state ui)) as [-> Hphases].
    destruct (activeStep (ui_state ui)).
    + destruct Hq as [Hp Honly]. split; [done|].
      intros s'. rewrite Hphases. apply Honly.
    + destruct Hq as [Hp Hnone]. split; [done|].
      intros s'. rewrite Hphases. apply Hnone.
Qed.

Lemma quiet_run (es : list UiEvent) (ui ui' : UI W) :
  quiet ui ->
  ui_run O es ui = Some ui' ->
  waits_for_idle O es ui = true ->
  quiet ui'.
Proof.
  revert ui. induction es as [|e es IH]; intros ui Hq Hrun Hwait; simpl in *.
  - by simplify_eq.
  - destruct (ui_step O e ui) as [ui1|] eqn:Hstep; [|done].
    apply andb_true_iff in Hwait as [Hclick Hwait].
    apply (IH ui1); [|done|done].
    apply (quiet_step e ui); [done| |done].
    destruct e; [|done..]. by apply bool_decide_eq_true_1 in Hclick.
Qed.

Lemma quiet_one_running (ui : UI W) :
  quiet ui -> at_most_one_running (ui_state ui).
Proof.
  unfold quiet. intros Hq s1 s2 H1 H2.
  destruct (activeStep (ui_state ui)).
  - destruct Hq as [_ Honly]. by rewrite (Honly s1 H1), (Honly s2 H2).
  - destruct Hq as [_ Hnone]. by destruct (Hnone s1).
Qed.

(** C1, as the code has it.  The button of a step is disabled while the
    active-step marker names that same step; the marker does not disable
    the buttons of the other steps.  In every state reached from the
    initial page by a run in which each click arrives while the marker is
    empty, at most one of the four steps is in phase [running]. *)
Theorem one_running_when_user_waits
  (hk : Hooks) (w : W) (es : list UiEvent) (ui : UI W) :
  (forall s hk' st, activeStep st = Some s -> disabled s hk' st = true)
  /\ (ui_run O es (ui_init hk w) = Some ui ->
      waits_for_idle O es (ui_init hk w) = true ->
      at_most_one_running (ui_state ui)).
Proof.
  split.
  - intros s hk' st Hactive. destruct s; simpl; rewrite Hactive.
    all: rewrite (bool_decide_eq_true_2 (Some _ = Some _)) by reflexivity.
    all: apply orb_true_r.
  - intros Hrun Hwait. apply quiet_one_running.
    apply (quiet_run es (ui_init hk w)); [|done|done].
    split; [done|]. by intros [].
Qed.

End SerializationProperties.

(** C1 fails as stated: with the deployment still running, the
    transfer-out button is enabled, and a click on it puts a second step
    in phase [running]. *)
Lemma two_steps_running :
  (exists ui,
     MultiStep.ui_run (Scenario.scripted Scenario.cooperative)
       Scenario.impatient
       (MultiStep.ui_init Scenario.readyHooks MultiStep.base_id) = Some ui
     /\ MultiStep.deployPhase (MultiStep.ui_state ui) = MultiStep.running
     /\ MultiStep.transferBackPhase (MultiStep.ui_state ui)
        = MultiStep.running)
  /\ ~ (forall es ui,
          MultiStep.ui_run (Scenario.scripted Scenario.cooperative) es
            (MultiStep.ui_init Scenario.readyHooks MultiStep.base_id)
          = Some ui ->
          MultiStep.at_most_one_running (MultiStep.ui_state ui)).
Proof.
  split.
  - eexists. split; [vm_compute; reflexivity|]. split; reflexivity.
  - intros Hclaim.
    destruct (MultiStep.ui_run (Scenario.scripted Scenario.cooperative)
                Scenario.impatient
                (MultiStep.ui_init Scenario.readyHooks MultiStep.base_id))
      as [ui|] eqn:Hrun; [|vm_compute in Hrun; discriminate Hrun].
    specialize (Hclaim _ _ Hrun MultiStep.deploy MultiStep.transferBack).
    vm_compute in Hrun. injection Hrun as <-.
    discriminate (Hclaim eq_refl eq_refl).
Qed.

Lemma one_running_when_user_waits_witness :
  exists ui,
    MultiStep.ui_run (Scenario.scripted Scenario.cooperative)
      Scenario.patient
      (MultiStep.ui_init Scenario.readyHooks MultiStep.base_id) = Some ui
    /\ MultiStep.transferBackPhase (MultiStep.ui_state ui)
       = MultiStep.running
    /\ MultiStep.at_most_one_running (MultiStep.ui_state ui).
Proof.
  eexists. split; [vm_compute; reflexivity|]. split; [reflexivity|].
  apply (proj2 (one_running_when_user_waits
                  (Scenario.scripted Scenario.cooperative)
                  Scenario.readyHooks MultiStep.base_id Scenario.patient _));
    vm_compute; reflexivity.
Defined.

(** ** A wallet that stays on the wrong network *)

Section MismatchProperties.
Import MultiStep.

Context {W : Type} (O : Oracle W).

(** The negotiator calls nothing of the SDK.  When it resolved a chain id,
    every resolved id differs from the required one and no switch call
    resolved, it rejects: with the first rejection it does not catch, or
    else with the network-mismatch error. *)
Lemma ensureWalletOnBase_unswitched
  (hk : Hooks) (w w1 : W) (tr : list Event) (r : Settled handle) :
  ensureWalletOnBase O hk (w, []) = ((w1, tr), r) ->
  no_sdk_call tr = true
  /\ (some_resolved tr = true ->
      all_resolved_differ tr = true ->
      no_switch_succeeded tr = true ->
      r = Rejected (match uncaught_rejection tr with
                    | Some t => t
                    | None => ThrownError (new_Error msg_switch_network)
                    end)).
Proof.
  unfold ensureWalletOnBase, resolveChainId. intros Hrun.
  async_cases.
  all: split; [reflexivity|]; simpl; intros Hsome Hdiffer Hswitch.
  all: try discriminate; try reflexivity.
  all: repeat match goal with
         | H : negb ?b = _ |- _ => destruct b; simpl in *
         end;
       discriminate.
Qed.

(** The [try] block of every handler: the negotiator, then the SDK
    constructor, then one SDK method. *)
Lemma try_block_unswitched {A : Type}
  (c : handle -> Call) (f : handle -> W -> W * Settled A)
  (hk : Hooks) (pc : handle) (w w' : W) (tr : list Event) (r : Settled A) :
  (let* activeWalletClient := ensureWalletOnBase O hk in
   await (CNewOnboardingClient activeWalletClient pc)
         (new_OnboardingClient O activeWalletClient pc) >>
   await (c activeWalletClient) (f activeWalletClient)) (w, [])
  = ((w', tr), r) ->
  some_resolved tr = true ->
  all_resolved_differ tr = true ->
  no_switch_succeeded tr = true ->
  no_sdk_call tr = true
  /\ r = Rejected (match uncaught_rejection tr with
                   | Some t => t
                   | None => ThrownError (new_Error msg_switch_network)
                   end).
Proof.
  intros Hrun. unfold bind at 1 in Hrun.
  destruct (ensureWalletOnBase O hk (w, [])) as [[w1 tr1] [a|t]] eqn:Hensure.
  - destruct (ensureWalletOnBase_unswitched _ _ _ _ _ Hensure) as [_ Hrej].
    intros Hsome Hdiffer Hswitch. exfalso.
    assert (exists evs,
               tr = tr1 ++ evs /\ some_resolved evs = false) as (evs & -> & He).
    { clear Hrej Hsome Hdiffer Hswitch. async_cases.
      all: rewrite <- ?app_assoc; eexists; split; reflexivity. }
    unfold some_resolved, all_resolved_differ, no_switch_succeeded in *.
    rewrite existsb_app in Hsome. rewrite forallb_app in Hdiffer, Hswitch.
    rewrite He, orb_false_r in Hsome.
    apply andb_true_iff in Hdiffer as [Hdiffer _].
    apply andb_true_iff in Hswitch as [Hswitch _].
    by specialize (Hrej Hsome Hdiffer Hswitch).
  - simplify_eq.
    destruct (ensureWalletOnBase_unswitched _ _ _ _ _ Hensure) as [Hno Hrej].
    intros Hsome Hdiffer Hswitch. split; [done|].
    specialize (Hrej Hsome Hdiffer Hswitch). injection Hrej as Ht.
    by rewrite <- Ht.
Qed.

(** C2, as the code has it.  Take a run of any of the four handlers in
    which the negotiator resolved a chain id, every chain id it resolved
    (at first, and again after its attempts) differs from the required
    one, and neither a session-level nor a provider-level switch call
    resolved.  The step ends in phase [error] and neither the SDK
    constructor nor an SDK method is called.  The message shown is that of
    the first rejection the negotiator does not catch (a rejected
    provider-level switch, or a rejected [getChainId]), with the handler's
    fallback text if that is not an [Error]; only when there is no such
    rejection it is 'Please switch your wallet to the Base network and try
    again.'. *)
Theorem unswitched_wallet_fails
  (s : Step) (hk : Hooks) (st st' : AppState) (w w' : W)
  (tr : list Event) :
  run_handler O s hk st (w, []) = ((w', tr), st') ->
  some_resolved tr = true ->
  all_resolved_differ tr = true ->
  no_switch_succeeded tr = true ->
  phase_of s st' = error
  /\ no_sdk_call tr = true
  /\ error_of s st' =
       Some (match uncaught_rejection tr with
             | Some t => caught_message t (fallback_of s)
             | None => msg_switch_network
             end).
Proof.
  intros Hrun Hsome Hdiffer Hswitch. unfold run_handler in Hrun.
  destruct (start s hk st) as [st1 [p|]] eqn:Hstart; [|by simplify_eq].
  destruct (start_pending_step _ _ _ _ _ Hstart) as (Hp & _ & _).
  destruct p; simpl in Hp; subst s; simpl in Hrun.
  all: match type of Hrun with
       | (let (_, _) := ?m ?x in _) = _ =>
           destruct (m x) as [[w1 tr1] r] eqn:Htry
       end; simplify_eq.
  - apply (try_block_unswitched (fun _ => CDeploySafe)) in Htry
      as [Hno ->]; [|done..].
    by destruct (uncaught_rejection tr).
  - apply (try_block_unswitched
             (fun _ => CSetPermissions (safeAddress safe)
                         (multiSendCallOnly safe))) in Htry
      as [Hno ->]; [|done..].
    by destruct (uncaught_rejection tr).
  - apply (try_block_unswitched
             (fun _ => CTransferAssetFromCallerToSafe safe tokenAddress
                         amount)) in Htry
      as [Hno ->]; [|done..].
    by destruct (uncaught_rejection tr).
  - apply (try_block_unswitched
             (fun _ => CTransferAssetFromSafeToSafeOwner safeAddressInput
                         tokenAddress amount)) in Htry
      as [Hno ->]; [|done..].
    by destruct (uncaught_rejection tr).
Qed.

End MismatchProperties.

(** C2 fails as stated.  First run: the session has no switch method and
    the user turns the provider-level request down; deploy ends in [error]
    with the wallet's message, not with the network-mismatch one.  Second
    run: the session-level switch rejects although the wallet did change
    network and wagmi offers no provider-level switch; no switch call
    resolved, yet the chain id resolved again is the required one and the
    SDK is called. *)
Lemma failed_switch_other_outcomes :
  (fst (MultiStep.run_handler (Scenario.scripted Scenario.refusing)
          MultiStep.deploy Scenario.readyHooks MultiStep.initialState
          (Scenario.mainnet, []))
   = (Scenario.mainnet,
      [MultiStep.EvResolved 1%nat (Some Scenario.mainnet);
       MultiStep.EvCall (MultiStep.CSwitchChainAsync MultiStep.base_id)
         (Some Scenario.userRejected)])
   /\ MultiStep.deployPhase
        (snd (MultiStep.run_handler (Scenario.scripted Scenario.refusing)
                MultiStep.deploy Scenario.readyHooks MultiStep.initialState
                (Scenario.mainnet, [])))
      = MultiStep.error
   /\ MultiStep.deployError
        (snd (MultiStep.run_handler (Scenario.scripted Scenario.refusing)
                MultiStep.deploy Scenario.readyHooks MultiStep.initialState
                (Scenario.mainnet, [])))
      = Some (js "User rejected the request."))
  /\ (fst (MultiStep.run_handler (Scenario.scripted Scenario.flaky)
             MultiStep.deploy Scenario.noProviderSwitch
             MultiStep.initialState (Scenario.mainnet, []))
      = (MultiStep.base_id,
         [MultiStep.EvCall (MultiStep.CGetChainId 1%nat) None;
          MultiStep.EvResolved 1%nat (Some Scenario.mainnet);
          MultiStep.EvCall (MultiStep.CSwitchChain 1%nat MultiStep.base_id)
            (Some Scenario.userRejected);
          MultiStep.EvWarn Scenario.userRejected;
          MultiStep.EvCall (MultiStep.CGetChainId 1%nat) None;
          MultiStep.EvResolved 1%nat (Some MultiStep.base_id);
          MultiStep.EvCall (MultiStep.CNewOnboardingClient 1%nat 7%nat) None;
          MultiStep.EvCall MultiStep.CDeploySafe None])
      /\ MultiStep.no_switch_succeeded
           (snd (fst (MultiStep.run_handler (Scenario.scripted Scenario.flaky)
                        MultiStep.deploy Scenario.noProviderSwitch
                        MultiStep.initialState (Scenario.mainnet, []))))
         = true
      /\ MultiStep.no_sdk_call
           (snd (fst (MultiStep.run_handler (Scenario.scripted Scenario.flaky)
                        MultiStep.deploy Scenario.noProviderSwitch
                        MultiStep.initialState (Scenario.mainnet, []))))
         = false
      /\ MultiStep.deployPhase
           (snd (MultiStep.run_handler (Scenario.scripted Scenario.flaky)
                   MultiStep.deploy Scenario.noProviderSwitch
                   MultiStep.initialState (Scenario.mainnet, [])))
         = MultiStep.success)
  /\ ~ (forall s hk st w w' tr st',
          MultiStep.run_handler (Scenario.scripted Scenario.refusing)
            s hk st (w, []) = ((w', tr), st') ->
          (exists id, MultiStep.first_resolved tr = Some id
                      /\ MultiStep.not_base id = true) ->
          MultiStep.no_switch_succeeded tr = true ->
          MultiStep.phase_of s st' = MultiStep.error
          /\ MultiStep.error_of s st' = Some MultiStep.msg_switch_network
          /\ MultiStep.no_sdk_call tr = true).
Proof.
  split; [|split].
  - vm_compute. by repeat split.
  - vm_compute. by repeat split.
  - intros Hclaim.
    destruct (Hclaim MultiStep.deploy Scenario.readyHooks
                MultiStep.initialState Scenario.mainnet _ _ _ eq_refl)
      as (_ & Hmessage & _).
    + exists (Some Scenario.mainnet). by split.
    + reflexivity.
    + vm_compute in Hmessage. discriminate Hmessage.
Qed.

Lemma unswitched_wallet_fails_witness :
  (MultiStep.transferBackPhase
     (snd (MultiStep.run_handler (Scenario.scripted Scenario.failing_session)
             MultiStep.transferBack Scenario.noProviderSwitch
             Scenario.completedState (Scenario.mainnet, [])))
   = MultiStep.error
   /\ MultiStep.transferBackError
     (snd (MultiStep.run_handler (Scenario.scripted Scenario.failing_session)
             MultiStep.transferBack Scenario.noProviderSwitch
             Scenario.completedState (Scenario.mainnet, [])))
   = Some MultiStep.msg_switch_network)
  /\ MultiStep.deployError
      (snd (MultiStep.run_handler (Scenario.scripted Scenario.refusing)
              MultiStep.deploy Scenario.readyHooks MultiStep.initialState
              (Scenario.mainnet, [])))
     = Some (js "User rejected the request.").
Proof.
  split.
  - set (r := MultiStep.run_handler _ _ _ _ _).
    destruct (unswitched_wallet_fails
                (Scenario.scripted Scenario.failing_session)
                MultiStep.transferBack Scenario.noProviderSwitch
                Scenario.completedState r.2 Scenario.mainnet r.1.1 r.1.2)
      as (Hphase & _ & Hmessage);
      [vm_compute; reflexivity ..|].
    split; [exact Hphase|].
    change (MultiStep.transferBackError r.2)
      with (MultiStep.error_of MultiStep.transferBack r.2).
    rewrite Hmessage. vm_compute. reflexivity.
  - set (r := MultiStep.run_handler _ _ _ _ _).
    destruct (unswitched_wallet_fails
                (Scenario.scripted Scenario.refusing)
                MultiStep.deploy Scenario.readyHooks
                MultiStep.initialState r.2 Scenario.mainnet r.1.1 r.1.2)
      as (_ & _ & Hmessage);
      [vm_compute; reflexivity ..|].
    change (MultiStep.deployError r.2)
      with (MultiStep.error_of MultiStep.deploy r.2).
    rewrite Hmessage. vm_compute. reflexivity.
Defined.

(** * Further properties *)

(** ** The negotiator, path by path *)

Section NegotiatorPaths.
Import MultiStep Trace.

Context {W : Type} (O : Oracle W).

Ltac async_hyp_cases :=
  async_unfold;
  repeat (first
    [ progress simplify_eq/=
    | match goal with
      | H : context [match ?x with _ => _ end] |- _ => destruct x eqn:?
      end ]).

Ltac on_base :=
  repeat match goal with
         | H : negb (?z =? base_id) = false |- _ =>
             apply negb_false_iff, Z.eqb_eq in H; subst z
         | H : negb (?z =? base_id) = true
           |- context [negb (?z =? base_id)] => rewrite H
         | H : (?z =? base_id) = true |- _ =>
             apply Z.eqb_eq in H; subst z
         | H : (?z =? base_id) = false |- context [?z =? base_id] =>
             rewrite H
         | H : account_of _ _ _ = _ |- _ => rewrite H
         end.

(** Every path through [ensureWalletOnBase], read off its trace. *)
Lemma ensureWalletOnBase_paths
  (hk : Hooks) (w w1 : W) (tr : list Event) (r : Settled handle) :
  ensureWalletOnBase O hk (w, []) = ((w1, tr), r) ->
  match r with
  | Resolved h =>
      last_resolved tr = Some (h, Some base_id)
      /\ is_Some (account_of O h w1)
      /\ uncaught_rejection tr = None
      /\ (walletClient hk = Some h
          \/ resolved_call is_switch tr = true
             /\ resolved_call is_refetch tr = true)
  | Rejected t =>
      match uncaught_rejection tr with
      | Some t' => t = t'
      | None =>
          match walletClient hk with
          | None => t = ThrownError (new_Error msg_no_wallet) /\ tr = []
          | Some _ =>
              match last_resolved tr with
              | Some (h, id) =>
                  if not_base id
                  then t = ThrownError (new_Error msg_switch_network)
                  else t = ThrownError (new_Error msg_no_account)
                       /\ account_of O h w1 = None
              | None => False
              end
          end
      end
  end
  /\ (count_calls is_getChainId tr <= 2
      /\ count_calls is_session_switch tr <= 1
      /\ count_calls is_provider_switch tr <= 1
      /\ count_calls is_refetch tr <= 1)%nat
  /\ (count_calls is_provider_switch tr = 1%nat ->
      resolved_call is_session_switch tr = false)
  /\ (count_calls is_refetch tr = 1%nat <->
      resolved_call is_switch tr = true
      /\ refetchWalletClient_is_function hk = true).
Proof.
  unfold ensureWalletOnBase, resolveChainId. intros Hrun.
  async_hyp_cases.
  all: on_base; simpl.
  all: repeat split.
  all: try first [ done | lia | by eauto | by right | by left
                 | by (intros [? ?]; congruence) ].
Qed.

(** X1.  Whenever [ensureWalletOnBase] resolves, the session it hands back
    is the one whose chain id it resolved last, that chain id is the
    required one, the session has an active account, and no call of the
    run rejected uncaught. *)
Theorem ensureWalletOnBase_resolves_on_base
  (hk : Hooks) (w w1 : W) (tr : list Event) (h : handle) :
  ensureWalletOnBase O hk (w, []) = ((w1, tr), Resolved h) ->
  last_resolved tr = Some (h, Some base_id)
  /\ is_Some (account_of O h w1)
  /\ uncaught_rejection tr = None.
Proof.
  intros Hrun.
  destruct (ensureWalletOnBase_paths _ _ _ _ _ Hrun)
    as ((Hlast & Haccount & Hnone & _) & _).
  done.
Qed.

(** X2.  The rejections of [ensureWalletOnBase].  It rejects with the
    first rejection of an external call it does not catch, if there is one.
    Otherwise it rejects with 'Wallet client not available. Connect a wallet
    first.' when there is no wallet client (and then it called nothing),
    with 'Please switch your wallet to the Base network and try again.' when
    the chain id resolved last is not the required one, and with 'Wallet
    client must have an active account.' when it is but the session has no
    account. *)
Theorem ensureWalletOnBase_rejections
  (hk : Hooks) (w w1 : W) (tr : list Event) (t : Thrown) :
  ensureWalletOnBase O hk (w, []) = ((w1, tr), Rejected t) ->
  match uncaught_rejection tr with
  | Some t' => t = t'
  | None =>
      match walletClient hk with
      | None => t = ThrownError (new_Error msg_no_wallet) /\ tr = []
      | Some _ =>
          match last_resolved tr with
          | Some (h, id) =>
              if not_base id
              then t = ThrownError (new_Error msg_switch_network)
              else t = ThrownError (new_Error msg_no_account)
                   /\ account_of O h w1 = None
          | None => False
          end
      end
  end.
Proof.
  intros Hrun. by destruct (ensureWalletOnBase_paths _ _ _ _ _ Hrun).
Qed.

(** X3.  The negotiator never retries.  One run calls the session's
    [getChainId] at most twice and each of the session-level switch, the
    provider-level switch and the refresh at most once; the provider-level
    switch is only called when no session-level switch resolved; and the
    session is refreshed exactly when a switch resolved and
    [refetchWalletClient] is a function. *)
Theorem ensureWalletOnBase_never_retries
  (hk : Hooks) (w w1 : W) (tr : list Event) (r : Settled handle) :
  ensureWalletOnBase O hk (w, []) = ((w1, tr), r) ->
  (count_calls is_getChainId tr <= 2)%nat
  /\ (count_calls is_session_switch tr <= 1)%nat
  /\ (count_calls is_provider_switch tr <= 1)%nat
  /\ (count_calls is_refetch tr <= 1)%nat
  /\ (count_calls is_provider_switch tr = 1%nat ->
      resolved_call is_session_switch tr = false)
  /\ (count_calls is_refetch tr = 1%nat <->
      resolved_call is_switch tr = true
      /\ refetchWalletClient_is_function hk = true).
Proof.
  intros Hrun.
  destruct (ensureWalletOnBase_paths _ _ _ _ _ Hrun)
    as (_ & (H1 & H2 & H3 & H4) & H5 & H6).
  done.
Qed.

(** X4.  The negotiator hands back another session than the one it was
    given only after a switch call resolved and the session was
    refreshed. *)
Theorem ensureWalletOnBase_session_changes_by_refresh
  (hk : Hooks) (wc h : handle) (w w1 : W) (tr : list Event) :
  walletClient hk = Some wc ->
  ensureWalletOnBase O hk (w, []) = ((w1, tr), Resolved h) ->
  h <> wc ->
  resolved_call is_switch tr = true
  /\ resolved_call is_refetch tr = true.
Proof.
  intros Hwc Hrun Hne.
  destruct (ensureWalletOnBase_paths _ _ _ _ _ Hrun)
    as ((_ & _ & _ & [Hsame | Hswitched]) & _); [congruence | done].
Qed.

(** X5.  A working session-level switch.  If the session is on another
    chain, its [switchChain] resolves, the refresh hands back a session
    [fresh], and that one resolves to the required chain and has an
    account, then [ensureWalletOnBase] resolves to [fresh], not to the
    session it started from, and the provider-level switch is not
    called. *)
Theorem ensureWalletOnBase_adopts_refreshed_session
  (hk : Hooks) (wc fresh : handle) (w w1 w2 w3 w4 : W)
  (tr1 tr4 : list Event) (cur : option Z) (acct : jsstring) :
  walletClient hk = Some wc ->
  resolveChainId O wc (w, []) = ((w1, tr1), Resolved cur) ->
  not_base cur = true ->
  has_switchChain O wc w1 = true ->
  switchChain O wc base_id w1 = (w2, Resolved tt) ->
  refetchWalletClient_is_function hk = true ->
  refetchWalletClient O w2 = (w3, Resolved (Some fresh)) ->
  resolveChainId O fresh
    (w3, tr1 ++ [EvCall (CSwitchChain wc base_id) None;
                 EvCall CRefetchWalletClient None])
  = ((w4, tr4), Resolved (Some base_id)) ->
  account_of O fresh w4 = Some acct ->
  ensureWalletOnBase O hk (w, []) = ((w4, tr4), Resolved fresh)
  /\ count_calls is_provider_switch tr4 = 0%nat.
Proof.
  intros Hwc Hres Hnot Hhas Hswitch Hfn Hrefetch Hres' Hacct.
  assert (ensureWalletOnBase O hk (w, []) = ((w4, tr4), Resolved fresh))
    as Hrun.
  { unfold ensureWalletOnBase. rewrite Hwc.
    set (rc := resolveChainId O) in *. async_unfold.
    rewrite Hres. simpl. rewrite Hnot. simpl. rewrite Hhas. simpl.
    rewrite Hswitch. simpl. rewrite Hfn. simpl. rewrite Hrefetch. simpl.
    rewrite <- app_assoc. simpl. rewrite Hres'. simpl.
    by rewrite Hacct. }
  split; [exact Hrun|].
  destruct (ensureWalletOnBase_paths _ _ _ _ _ Hrun)
    as (_ & (_ & _ & Hle & _) & Honly & _).
  destruct (count_calls is_provider_switch tr4) as [|[|n]] eqn:Hcount;
    [done| |lia].
  specialize (Honly eq_refl).
  destruct (resolveChainId_events O _ _ _ _ _ _ Hres')
    as (evs & -> & _).
  unfold resolved_call in Honly. rewrite !existsb_app in Honly.
  simpl in Honly. by rewrite orb_true_r in Honly.
Qed.

End NegotiatorPaths.

(** ** What reaches the SDK *)

Section SdkProperties.
Import MultiStep Trace View.

Context {W : Type} (O : Oracle W).

(** The [try] block of a handler either stops with the negotiator, or
    goes on to the constructor and, if that returns, to the method. *)
Lemma try_block_trace {A : Type}
  (c : handle -> Call) (f : handle -> W -> W * Settled A)
  (hk : Hooks) (pc : handle) (w w' : W) (tr : list Event) (r : Settled A) :
  (let* activeWalletClient := ensureWalletOnBase O hk in
   await (CNewOnboardingClient activeWalletClient pc)
         (new_OnboardingClient O activeWalletClient pc) >>
   await (c activeWalletClient) (f activeWalletClient)) (w, [])
  = ((w', tr), r) ->
  (exists t,
     ensureWalletOnBase O hk (w, []) = ((w', tr), Rejected t)
     /\ r = Rejected t)
  \/ (exists w1 tr1 h,
        ensureWalletOnBase O hk (w, []) = ((w1, tr1), Resolved h)
        /\ ((exists t,
               tr = tr1 ++ [EvCall (CNewOnboardingClient h pc) (Some t)]
               /\ r = Rejected t)
            \/ tr = tr1 ++ [EvCall (CNewOnboardingClient h pc) None;
                            EvCall (c h) (rejection_of r)])).
Proof.
  intros Hrun. unfold bind at 1 in Hrun.
  destruct (ensureWalletOnBase O hk (w, [])) as [[w1 tr1] [h|t]] eqn:Hensure.
  - right. exists w1, tr1, h. split; [done|].
    async_cases; rewrite <- ?app_assoc; simpl; eauto.
  - left. simplify_eq. eauto.
Qed.

Lemma last_resolved_In (tr : list Event) (h : handle) (id : option Z) :
  last_resolved tr = Some (h, id) -> In (EvResolved h id) tr.
Proof.
  induction tr as [|e tr IH]; simpl; [done|].
  destruct (last_resolved tr) as [x|].
  - intros [= ->]. right. by apply IH.
  - destruct e; try done. intros [= -> ->]. by left.
Qed.

Lemma no_sdk_call_In (tr : list Event) (c : Call) (r : option Thrown) :
  no_sdk_call tr = true -> In (EvCall c r) tr -> is_sdk c = false.
Proof.
  unfold no_sdk_call. rewrite forallb_forall. intros Hall Hin.
  specialize (Hall _ Hin). simpl in Hall. by apply negb_true_iff.
Qed.

(** X6.  Only vetted inputs reach the SDK.  In a run of any handler, the
    client is constructed with the network client of the render and with a
    session that the negotiator resolved to the required chain; deploy
    calls nothing but [deploySafe]; set-permissions passes the Safe and
    multi-send addresses of the stored deploy result; the transfers pass
    the trimmed form inputs, the addresses of the 0x/42 shape and the
    amount non-empty (transfer-in with the Safe address of the stored
    deploy result). *)
Theorem sdk_receives_vetted_inputs
  (s : Step) (hk : Hooks) (st st' : AppState) (w w' : W)
  (tr : list Event) (c : Call) (rej : option Thrown) :
  run_handler O s hk st (w, []) = ((w', tr), st') ->
  In (EvCall c rej) tr ->
  is_sdk c = true ->
  sdk_call_vetted s hk st tr c.
Proof.
  intros Hrun Hin Hsdk. unfold run_handler in Hrun.
  destruct (start s hk st) as [st1 [p|]] eqn:Hstart;
    [|by simplify_eq].
  assert (forall A (m : handle -> Call) (f : handle -> W -> W * Settled A)
            pc (r : Settled A),
            publicClient hk = Some pc ->
            (let* activeWalletClient := ensureWalletOnBase O hk in
             await (CNewOnboardingClient activeWalletClient pc)
                   (new_OnboardingClient O activeWalletClient pc) >>
             await (m activeWalletClient) (f activeWalletClient)) (w, [])
            = ((w', tr), r) ->
            exists h,
              (c = CNewOnboardingClient h pc
               /\ In (EvResolved h (Some base_id)) tr)
              \/ c = m h) as Hshape.
  { intros A m f pc r Hpc Htry.
    destruct (try_block_trace _ _ _ _ _ _ _ _ Htry)
      as [(t & Hens & _) | (w1 & tr1 & h & Hens & Htr)].
    - destruct (ensureWalletOnBase_unswitched _ _ _ _ _ _ Hens) as [Hno _].
      rewrite (no_sdk_call_In _ _ _ Hno Hin) in Hsdk. discriminate Hsdk.
    - destruct (ensureWalletOnBase_unswitched _ _ _ _ _ _ Hens) as [Hno _].
      destruct (ensureWalletOnBase_paths _ _ _ _ _ _ Hens)
        as ((Hlast & _) & _).
      apply last_resolved_In in Hlast. exists h.
      destruct Htr as [(t & -> & _) | ->];
        apply in_app_or in Hin as [Hin|Hin].
      + rewrite (no_sdk_call_In _ _ _ Hno Hin) in Hsdk. discriminate Hsdk.
      + destruct Hin as [Hin|[]]. simplify_eq. left.
        split; [done|]. apply in_or_app. by left.
      + rewrite (no_sdk_call_In _ _ _ Hno Hin) in Hsdk. discriminate Hsdk.
      + destruct Hin as [Hin|[Hin|[]]]; simplify_eq.
        * left. split; [done|]. apply in_or_app. by left.
        * by right. }
  destruct s; start_cases.
  all: match goal with
       | H : handleDeploySafe_try _ _ ?pc _ = _ |- _ =>
           destruct (Hshape _ (fun _ => CDeploySafe) _ pc _ eq_refl H)
             as (h' & [[-> Hres] | ->])
       | H : handleSetPermissions_try _ _ ?pc ?safe _ = _ |- _ =>
           destruct (Hshape _ (fun _ => CSetPermissions (safeAddress safe)
                                          (multiSendCallOnly safe))
                       _ pc _ eq_refl H)
             as (h' & [[-> Hres] | ->])
       | H : handleTransfer_try _ _ ?pc ?a ?b ?d _ = _ |- _ =>
           destruct (Hshape _ (fun _ => CTransferAssetFromCallerToSafe a b d)
                       _ pc _ eq_refl H)
             as (h' & [[-> Hres] | ->])
       | H : handleTransferBack_try _ _ ?pc ?a ?b ?d _ = _ |- _ =>
           destruct (Hshape _ (fun _ =>
                                 CTransferAssetFromSafeToSafeOwner a b d)
                       _ pc _ eq_refl H)
             as (h' & [[-> Hres] | ->])
       end; simpl; try done.
  all: repeat match goal with
         | H : bad_address _ = false |- _ =>
             apply bad_address_hex_shaped in H as [? ?]
         | H : negb (truthy _) = false |- _ =>
             apply negb_false_iff in H
         | H : truthy ?x = true |- _ =>
             assert (x <> []) by (by destruct x); clear H
         end.
  all: repeat split; first [done | by eexists].
Qed.


Lemma no_sdk_call_ends (tr : list Event) :
  no_sdk_call tr = true -> ends_with_resolved_method tr = false.
Proof.
  unfold ends_with_resolved_method. intros Hno.
  destruct (last tr) as [[c [t|]| |]|] eqn:Hlast; try done.
  apply last_Some in Hlast as [tr' ->].
  unfold no_sdk_call in Hno. rewrite forallb_app in Hno. simpl in Hno.
  apply andb_true_iff in Hno as [_ Hno]. rewrite andb_true_r in Hno.
  apply negb_true_iff in Hno. unfold is_method. by rewrite Hno.
Qed.

(** A [try] block resolves exactly when its trace ends with the SDK
    method resolving. *)
Lemma try_block_ends {A : Type}
  (c : handle -> Call) (f : handle -> W -> W * Settled A)
  (hk : Hooks) (pc : handle) (w w' : W) (tr : list Event) (r : Settled A) :
  (forall h, is_method (c h) = true) ->
  (let* activeWalletClient := ensureWalletOnBase O hk in
   await (CNewOnboardingClient activeWalletClient pc)
         (new_OnboardingClient O activeWalletClient pc) >>
   await (c activeWalletClient) (f activeWalletClient)) (w, [])
  = ((w', tr), r) ->
  ends_with_resolved_method tr =
    match r with Resolved _ => true | Rejected _ => false end.
Proof.
  intros Hmethod Htry.
  destruct (try_block_trace _ _ _ _ _ _ _ _ Htry)
    as [(t & Hens & ->) | (w1 & tr1 & h & Hens & Htr)].
  - destruct (ensureWalletOnBase_unswitched _ _ _ _ _ _ Hens) as [Hno _].
    by apply no_sdk_call_ends.
  - destruct Htr as [(t & -> & ->) | ->]; unfold ends_with_resolved_method.
    + by rewrite last_snoc.
    + change [EvCall (CNewOnboardingClient h pc) None;
              EvCall (c h) (rejection_of r)]
        with ([EvCall (CNewOnboardingClient h pc) None]
              ++ [EvCall (c h) (rejection_of r)]).
      rewrite app_assoc, last_snoc. destruct r; simpl; [apply Hmethod|done].
Qed.

(** X7.  How a handler run ends.  Every run of a handler, whether it
    stops in its pre-flight checks or goes through its [try] block, leaves
    its step in phase [success] or [error]: [success] exactly when the run
    ended with the SDK method resolving, and then the step holds a result
    and no error message; [error] otherwise, and then it holds a
    message. *)
Theorem handler_outcome
  (s : Step) (hk : Hooks) (st st' : AppState) (w w' : W)
  (tr : list Event) :
  run_handler O s hk st (w, []) = ((w', tr), st') ->
  (phase_of s st' = success <-> ends_with_resolved_method tr = true)
  /\ (phase_of s st' = error <-> ends_with_resolved_method tr = false)
  /\ (phase_of s st' = success ->
      result_present s st' = true /\ error_of s st' = None)
  /\ (phase_of s st' = error -> is_Some (error_of s st')).
Proof.
  intros Hrun. unfold run_handler in Hrun.
  assert (forall (m : jsstring) (b : bool),
            (error = success <-> false = true)
            /\ (error = error <-> false = false)
            /\ (error = success -> b = true /\ Some m = None)
            /\ (error = error -> is_Some (Some m))) as Hfail.
  { intros m b. repeat split; done. }
  assert ((success = success <-> true = true)
          /\ (success = error <-> true = false)
          /\ (success = success -> true = true /\ @None jsstring = None)
          /\ (success = error -> is_Some (@None jsstring))) as Hok.
  { repeat split; done. }
  destruct s; start_cases.
  all: try match goal with
           | H : _ = (_, _, _) |- _ =>
               apply try_block_ends in H; [|done]; rewrite H
           end.
  all: change (ends_with_resolved_method []) with false.
  all: first [apply Hok | apply Hfail].
Qed.

End SdkProperties.

(** ** The page over any run *)

Section PageProperties.
Import MultiStep Trace View.

Context {W : Type} (O : Oracle W).

Lemma start_outcomes (s : Step) (hk : Hooks) (st st' : AppState)
  (p : option Pending) :
  outcomes_backed st -> start s hk st = (st', p) -> outcomes_backed st'.
Proof.
  intros Hb Hstart s'.
  destruct s; start_cases; destruct (Hb s') as [? ?]; destruct s'.
  all: simpl in *; split; first [assumption | done | by eauto].
Qed.

Lemma resume_outcomes (p : Pending) (w w' : W * list Event)
  (st st' : AppState) :
  outcomes_backed st -> resume O p w st = (w', st') -> outcomes_backed st'.
Proof.
  intros Hb Hres s'.
  destruct p; simpl in *.
  all: case_match; simplify_eq.
  all: match goal with r : Settled _ |- _ => destruct r end.
  all: destruct (Hb s') as [? ?]; destruct s'.
  all: simpl in *; split; first [assumption | done | by eauto].
Qed.

Lemma ui_step_outcomes (e : UiEvent) (ui ui' : UI W) :
  outcomes_backed (ui_state ui) ->
  ui_step O e ui = Some ui' ->
  outcomes_backed (ui_state ui').
Proof.
  intros Hb Hstep. destruct e as [s|i|hk|f v]; simpl in Hstep.
  - destruct (disabled s (ui_hooks ui) (ui_state ui)); [done|].
    destruct (start s (ui_hooks ui) (ui_state ui)) as [st' p] eqn:Hstart.
    simplify_eq/=. by eapply start_outcomes.
  - destruct (ui_pending ui !! i) as [p|]; [|done].
    destruct (resume O p (ui_world ui) (ui_state ui)) as [w' st'] eqn:Hres.
    simplify_eq/=. by eapply resume_outcomes.
  - by simplify_eq/=.
  - simplify_eq/=. intros s. specialize (Hb s). by destruct f, s.
Qed.

(** X8.  In every state the page reaches, under any interleaving of
    clicks, typing, re-renders and handler completions, a step in phase
    [success] holds a result and a step in phase [error] holds a message;
    so the success panel of a step is rendered exactly when its phase is
    [success], and in phase [error] the error paragraph shows the stored
    message, unless that message is the empty string, in which case no
    paragraph is rendered. *)
Theorem page_outcomes_backed
  (hk : Hooks) (w : W) (es : list UiEvent) (ui : UI W) :
  ui_run O es (ui_init hk w) = Some ui ->
  outcomes_backed (ui_state ui)
  /\ (forall s,
        success_panel s (ui_state ui) = true
        <-> phase_of s (ui_state ui) = success)
  /\ (forall s,
        phase_of s (ui_state ui) = error ->
        exists m,
          error_of s (ui_state ui) = Some m
          /\ error_paragraph s (ui_state ui)
             = if truthy m then Some m else None).
Proof.
  intros Hrun.
  assert (outcomes_backed (ui_state ui)) as Hb.
  { assert (outcomes_backed (ui_state (ui_init hk w))) as Hinit.
    { intros s. by destruct s. }
    revert Hrun Hinit. generalize (ui_init hk w). clear hk w.
    induction es as [|e es IH]; intros ui0 Hrun Hinit; simpl in Hrun.
    - by simplify_eq.
    - destruct (ui_step O e ui0) as [ui1|] eqn:Hstep; [|done].
      apply (IH ui1 Hrun). by eapply ui_step_outcomes. }
  split; [exact Hb|]. split.
  - intros s. unfold success_panel.
    rewrite andb_true_iff, bool_decide_eq_true. split; [tauto|].
    intros Hs. split; [done|]. by apply Hb.
  - intros s Hs. destruct (Hb s) as [_ Herr].
    destruct (Herr Hs) as [m Hm]. exists m. split; [done|].
    unfold error_paragraph. rewrite bool_decide_eq_true_2 by done.
    by rewrite Hm.
Qed.

(** The buttons are enabled only on a page that can interact, which
    has a network client. *)
Lemma delivered_click_public (s : Step) (ui ui' : UI W) :
  ui_step O (Click s) ui = Some ui' ->
  canInteract (ui_hooks ui) = true
  /\ exists pc, publicClient (ui_hooks ui) = Some pc.
Proof.
  simpl. intros Hstep.
  destruct (disabled s (ui_hooks ui) (ui_state ui)) eqn:Hdis; [done|].
  assert (canInteract (ui_hooks ui) = true) as Hcan.
  { destruct s; simpl in Hdis; by destruct (canInteract (ui_hooks ui)). }
  split; [done|].
  unfold canInteract in Hcan. rewrite !andb_true_iff in Hcan.
  destruct Hcan as [_ Hpc]. by apply bool_decide_eq_true in Hpc.
Qed.

(** X9.  A click that the page delivers finds a network client, so no
    handler started from a button ever reports 'Public client not
    available.'.  A delivered click on Deploy always starts a deployment;
    a delivered click on set-permissions or transfer-in finds a stored
    deploy result, and reports 'Deploy a Safe first.' only if the Safe
    address in it is empty. *)
Theorem delivered_click (s : Step) (ui ui' : UI W) :
  ui_step O (Click s) ui = Some ui' ->
  is_Some (publicClient (ui_hooks ui))
  /\ error_of s (ui_state ui') <> Some msg_no_public_client
  /\ (s = deploy ->
      phase_of deploy (ui_state ui') = running
      /\ exists pc,
          ui_pending ui' = ui_pending ui ++ [PDeploy (ui_hooks ui) pc])
  /\ (s = permissions \/ s = transfer ->
      exists safe,
        safeResult (ui_state ui) = Some safe
        /\ (error_of s (ui_state ui') = Some msg_deploy_first ->
            safeAddress safe = [])).
Proof.
  intros Hstep.
  destruct (delivered_click_public s ui ui' Hstep) as [Hcan [pc Hpc]].
  simpl in Hstep.
  destruct (disabled s (ui_hooks ui) (ui_state ui)) eqn:Hdis; [done|].
  assert (s = permissions \/ s = transfer ->
          is_Some (safeResult (ui_state ui))) as Hsafe.
  { intros [-> | ->]; simpl in Hdis; rewrite Hcan in Hdis; simpl in Hdis.
    all: destruct (safeResult (ui_state ui)); [by eexists|done]. }
  destruct (start s (ui_hooks ui) (ui_state ui)) as [st' p] eqn:Hstart.
  simplify_eq/=. split; [by eexists|].
  split; [|split].
  - destruct s; start_cases; done.
  - intros ->. simpl in Hstart. unfold handleDeploySafe_start in Hstart.
    rewrite Hpc in Hstart. simplify_eq/=. split; [done|]. by eexists.
  - intros Hs. destruct (Hsafe Hs) as [safe Hsome]. exists safe.
    split; [done|]. intros Herr.
    destruct Hs as [-> | ->]; start_cases; try done.
    all: match goal with
         | H : truthy ?x = false |- _ => by destruct x
         end.
Qed.

Lemma ui_step_deploy_result (e : UiEvent) (ui ui' : UI W) :
  quiet ui ->
  deploy_result_current (ui_state ui) ->
  match e with
  | Click _ => activeStep (ui_state ui) = None
  | _ => True
  end ->
  ui_step O e ui = Some ui' ->
  deploy_result_current (ui_state ui').
Proof.
  intros Hq Hc Hclick Hstep.
  destruct e as [s|i|hk|f v].
  - destruct (delivered_click_public s ui ui' Hstep) as [_ [pc Hpc]].
    simpl in Hstep.
    destruct (disabled s (ui_hooks ui) (ui_state ui)); [done|].
    destruct (start s (ui_hooks ui) (ui_state ui)) as [st' p] eqn:Hstart.
    simplify_eq/=.
    destruct s; start_cases; destruct Hc as [Hsucc Hnone]; split; simpl.
    all: first [ exact Hsucc | exact Hnone | done
               | by (intros; congruence) | by intros [? ?] ].
  - simpl in Hstep.
    destruct (ui_pending ui !! i) as [p|] eqn:Hlookup; [|done].
    destruct (resume O p (ui_world ui) (ui_state ui)) as [w' st'] eqn:Hres.
    simplify_eq/=. unfold quiet in Hq.
    destruct (activeStep (ui_state ui)) as [a|] eqn:Hactive.
    + destruct Hq as [(p' & Hpending & Hp') _].
      rewrite Hpending in Hlookup. destruct i; simplify_eq/=.
      destruct p; simpl in *.
      all: case_match; simplify_eq.
      all: match goal with r : Settled _ |- _ => destruct r end.
      all: destruct Hc as [Hsucc Hnone]; split; simpl.
      all: first [ exact Hsucc | done
                 | by (intros [? Hsome]; rewrite Hnone in Hsome) ].
    + destruct Hq as [Hpending _]. by rewrite Hpending in Hlookup.
  - by simplify_eq/=.
  - simplify_eq/=. by destruct f.
Qed.

(** X10.  When the user waits for each handler to end, a deploy result is
    stored only while the deploy step is in phase [success], and none is
    stored while a deployment runs; so the set-permissions and transfer-in
    buttons are enabled only after a deployment that succeeded. *)
Theorem downstream_needs_successful_deploy
  (hk : Hooks) (w : W) (es : list UiEvent) (ui : UI W) :
  ui_run O es (ui_init hk w) = Some ui ->
  waits_for_idle O es (ui_init hk w) = true ->
  deploy_result_current (ui_state ui)
  /\ forall s,
      s = permissions \/ s = transfer ->
      disabled s (ui_hooks ui) (ui_state ui) = false ->
      deployPhase (ui_state ui) = success.
Proof.
  intros Hrun Hwait.
  assert (quiet ui /\ deploy_result_current (ui_state ui)) as [_ Hcur].
  { assert (quiet (ui_init hk w)
            /\ deploy_result_current (ui_state (ui_init hk w))) as Hinit.
    { split; [split; [done|by intros []]|].
      split; [by intros [? ?]|done]. }
    revert Hrun Hwait Hinit. generalize (ui_init hk w). clear hk w.
    induction es as [|e es IH]; intros ui0 Hrun Hwait [Hq Hc];
      simpl in Hrun, Hwait.
    - by simplify_eq.
    - destruct (ui_step O e ui0) as [ui1|] eqn:Hstep; [|done].
      apply andb_true_iff in Hwait as [Hclick Hwait].
      assert (match e with
              | Click _ => activeStep (ui_state ui0) = None
              | _ => True
              end) as Hguard.
      { destruct e; [|done..]. by apply bool_decide_eq_true_1 in Hclick. }
      apply (IH ui1 Hrun Hwait). split.
      + by apply (quiet_step O e ui0).
      + by apply (ui_step_deploy_result e ui0). }
  split; [exact Hcur|].
  intros s Hs Hdis. apply Hcur.
  destruct (safeResult (ui_state ui)) eqn:Hsafe; [by eexists|].
  destruct Hs as [-> | ->]; simpl in Hdis; rewrite Hsafe in Hdis.
  all: rewrite bool_decide_eq_true_2 in Hdis by done.
  all: by rewrite orb_true_r in Hdis.
Qed.

(** X16.  No handler touches the form: after a click or the end of a
    handler (and after a re-render) the five inputs hold what they held;
    only typing changes them. *)
Theorem form_inputs_kept (e : UiEvent) (ui ui' : UI W) :
  ui_step O e ui = Some ui' ->
  (forall f v, e <> Change f v) ->
  form_inputs (ui_state ui') = form_inputs (ui_state ui).
Proof.
  intros Hstep Hne. destruct e as [s|i|hk|f v]; simpl in Hstep.
  - destruct (disabled s (ui_hooks ui) (ui_state ui)); [done|].
    destruct (start s (ui_hooks ui) (ui_state ui)) as [st' p] eqn:Hstart.
    simplify_eq/=. destruct s; by start_cases.
  - destruct (ui_pending ui !! i) as [p|]; [|done].
    destruct (resume O p (ui_world ui) (ui_state ui)) as [w' st'] eqn:Hres.
    simplify_eq/=. destruct p; simpl in *.
    all: case_match; simplify_eq.
    all: by match goal with r : Settled _ |- _ => destruct r end.
  - by simplify_eq/=.
  - by destruct (Hne f v).
Qed.

End PageProperties.

(** ** The connection section *)

Section ConnectionProperties.
Import Connection.

Lemma str_eqb_eq (a b : jsstring) : str_eqb a b = true <-> a = b.
Proof. unfold str_eqb. apply bool_decide_eq_true. Qed.

(** X11.  [handleConnect] does nothing exactly when no offered connector
    has the given id; when it does connect, it is to an offered connector
    with that id, on the Base chain; and if the ids of the offered
    connectors are distinct, the button of a connector connects that very
    connector. *)
Theorem handleConnect_finds_connector
  (connectors : list Connector) (connectorId : jsstring) :
  (handleConnect connectors connectorId = None <->
   forall c, In c connectors -> conn_id c <> connectorId)
  /\ (forall c chain,
        handleConnect connectors connectorId = Some (c, chain) ->
        In c connectors /\ conn_id c = connectorId
        /\ chain = MultiStep.base_id)
  /\ (forall c,
        In c connectors ->
        NoDup (conn_id <$> connectors) ->
        handleConnect connectors (conn_id c)
        = Some (c, MultiStep.base_id)).
Proof.
  unfold handleConnect. split; [|split].
  - destruct (List.find _ connectors) as [c|] eqn:Hfind.
    + apply find_some in Hfind as [Hin Heq]. apply str_eqb_eq in Heq.
      split; [done|]. intros Hnone. by destruct (Hnone c Hin).
    + split; [|done]. intros _ c Hin Heq.
      pose proof (find_none _ _ Hfind c Hin) as Hne. simpl in Hne.
      apply str_eqb_eq in Heq. congruence.
  - intros c chain Hsome.
    destruct (List.find _ connectors) as [c'|] eqn:Hfind; [|done].
    simplify_eq. apply find_some in Hfind as [Hin Heq].
    by apply str_eqb_eq in Heq.
  - intros c Hin Hnodup.
    induction connectors as [|c0 cs IH]; [done|]. simpl.
    rewrite fmap_cons in Hnodup. apply NoDup_cons in Hnodup as [Hfresh Hnodup].
    destruct (str_eqb (conn_id c0) (conn_id c)) eqn:Heq.
    + apply str_eqb_eq in Heq. destruct Hin as [->|Hin]; [done|].
      destruct Hfresh. rewrite Heq. apply list_elem_of_fmap.
      exists c. split; [done|]. by apply list_elem_of_In.
    + destruct Hin as [->|Hin].
      * assert (str_eqb (conn_id c) (conn_id c) = true) by by apply str_eqb_eq.
        congruence.
      * by apply IH.
Qed.

(** X12.  The hint that 'WalletConnect and MetaMask buttons stay enabled
    even while the extension or QR modal is loading' is rendered exactly
    when, with no connection pending, some connector that is not ready has
    an enabled button. *)
Theorem loading_hint_matches_buttons
  (toLowerCase : jsstring -> jsstring) (connectors : list Connector)
  (connectStatus : ConnectStatus) :
  connectStatus <> connect_pending ->
  (loading_hint toLowerCase connectors = true <->
   exists c,
     In c connectors /\ conn_ready c = false
     /\ connector_disabled toLowerCase connectStatus c = false).
Proof.
  intros Hstatus. unfold loading_hint, connector_disabled, allowUnready.
  rewrite existsb_exists. rewrite (bool_decide_eq_false_2 _ Hstatus).
  split.
  - intros (c & Hin & Hc). exists c. split; [done|].
    apply andb_true_iff in Hc as [Hallow Hready].
    apply negb_true_iff in Hready. rewrite Hready, Hallow. done.
  - intros (c & Hin & Hready & Hdis). exists c. split; [done|].
    rewrite Hready in *. simpl in *.
    apply negb_false_iff in Hdis. by rewrite Hdis.
Qed.

End ConnectionProperties.

(** ** The polyfill, run again *)

Section PolyfillAgain.
Import ProcessEnv.

Lemma polyfill_fixed (p : Process) (meta : ImportMetaEnv)
  (u v : jsstring) (e0 : gmap (list N) (option (list N))) :
  env p = <[PRIVATE_KEY := Some v]> (<[RPC_URL := Some u]> e0) ->
  polyfill (Some p) meta = p.
Proof.
  destruct p as [e]. simpl. intros ->. unfold polyfill. simpl. f_equal.
  assert (prop (<[PRIVATE_KEY := Some v]> (<[RPC_URL := Some u]> e0))
               PRIVATE_KEY = Some v) as ->.
  { unfold prop. by rewrite lookup_insert_eq. }
  assert (prop (<[PRIVATE_KEY := Some v]> (<[RPC_URL := Some u]> e0))
               RPC_URL = Some u) as ->.
  { unfold prop. rewrite lookup_insert_ne by done.
    by rewrite lookup_insert_eq. }
  unfold or_empty, nullish.
  apply map_eq. intros k.
  destruct (decide (k = PRIVATE_KEY)) as [->|Hk1].
  { by rewrite !lookup_insert_eq. }
  assert (PRIVATE_KEY <> k) as Hk1' by congruence.
  rewrite (lookup_insert_ne _ PRIVATE_KEY k _ Hk1').
  rewrite (lookup_insert_ne (<[RPC_URL:=Some u]> e0) PRIVATE_KEY k _ Hk1').
  destruct (decide (k = RPC_URL)) as [->|Hk2].
  { by rewrite !lookup_insert_eq. }
  assert (RPC_URL <> k) as Hk2' by congruence.
  rewrite (lookup_insert_ne _ RPC_URL k _ Hk2').
  rewrite (lookup_insert_ne e0 RPC_URL k _ Hk2').
  rewrite (lookup_insert_ne _ PRIVATE_KEY k _ Hk1').
  by rewrite (lookup_insert_ne _ RPC_URL k _ Hk2').
Qed.

(** X13.  The polyfill is idempotent: run again on the [process] it
    produced, with whatever Vite variables, it produces the same
    [process]. *)
Theorem polyfill_idempotent
  (g : option Process) (meta meta' : ImportMetaEnv) :
  polyfill (Some (polyfill g meta)) meta' = polyfill g meta.
Proof. by eapply polyfill_fixed. Qed.

End PolyfillAgain.

(** ** The single-step page *)

Section OnboardProperties.
Import MultiStep Onboard.

Context {W : Type} (O : Oracle W).

Variable onboardClient :
  handle -> jsstring -> handle -> option jsstring ->
  W -> W * Settled DeploymentResult.

Lemma bind_session {A : Type} (m : Async A)
  (k1 : A -> Async handle) (k2 : A -> Async (handle * jsstring))
  (s : W * list Event) :
  (forall a s', k1 a s' = (let (s'', r) := k2 a s' in (s'', session_of r))) ->
  bind m k1 s = (let (s', r) := bind m k2 s in (s', session_of r)).
Proof.
  intros Hk. unfold bind. destruct (m s) as [s1 [a|t]]; [apply Hk|done].
Qed.

(** X15.  The negotiation written out inside [handleOnboard] is the
    routine [ensureWalletOnBase] of the multi-step page: on a page with a
    wallet client the two change the world alike, leave the same trace and
    settle alike, the first handing back the account next to the
    session. *)
Theorem negotiate_is_ensureWalletOnBase
  (hk : Hooks) (wc : handle) (s : W * list Event) :
  walletClient hk = Some wc ->
  ensureWalletOnBase O hk s =
    (let (s', r) := negotiate O hk wc s in (s', session_of r)).
Proof.
  intros Hwc. unfold ensureWalletOnBase, negotiate. rewrite Hwc.
  apply bind_session. intros currentChainId s1.
  apply bind_session. intros activeWalletClient s2.
  apply bind_session. intros account s3.
  by destruct account.
Qed.

Lemma handleOnboard_start_phase (hk : OnboardHooks) (st st' : OnboardState)
  (p : option OnboardPending) :
  handleOnboard_start hk st = (st', p) ->
  match p with
  | Some _ => onboardingPhase st' = running /\ deploymentResult st' = None
  | None => onboardingPhase st' = error
            /\ deploymentResult st' = deploymentResult st
  end.
Proof.
  unfold handleOnboard_start. intros H. repeat case_match; by simplify_eq/=.
Qed.

Lemma single_flight_step (e : OnboardEvent)
  (ui ui' : OnboardUI W) :
  single_flight ui ->
  onboard_step O onboardClient e ui = Some ui' ->
  single_flight ui'.
Proof.
  unfold single_flight. intros (Hatmost & Hrunning & Hnone & Hsome) Hstep.
  destruct e as [|i|hk]; simpl in Hstep.
  - destruct (onboard_disabled (ob_hooks ui) (ob_state ui)) eqn:Hdis; [done|].
    assert (onboardingPhase (ob_state ui) <> running) as Hidle.
    { unfold onboard_disabled in Hdis. intros Hrun. rewrite Hrun in Hdis.
      rewrite bool_decide_eq_true_2 in Hdis by done.
      by rewrite orb_true_r in Hdis. }
    assert (ob_pending ui = []) as Hempty.
    { destruct (ob_pending ui) eqn:Hp; [done|].
      destruct Hidle. by apply Hrunning. }
    destruct (handleOnboard_start (ob_hooks ui) (ob_state ui))
      as [st' p] eqn:Hstart.
    apply handleOnboard_start_phase in Hstart. simplify_eq/=.
    rewrite Hempty. destruct p as [p|]; simpl;
      destruct Hstart as [Hphase Hres]; rewrite Hphase.
    + split; [right; by eexists|]. split; [done|]. split; done.
    + split; [by left|]. split; [|done]. split; done.
  - destruct (ob_pending ui !! i) as [p|] eqn:Hlookup; [|done].
    destruct (handleOnboard_try O onboardClient p (ob_world ui))
      as [w' r] eqn:Htry.
    simplify_eq/=.
    assert (ob_pending ui = [p] /\ i = 0%nat) as [Hp ->].
    { destruct Hatmost as [Hp | [p' Hp]]; rewrite Hp in Hlookup.
      - done.
      - destruct i; simplify_eq/=. done. }
    rewrite Hp. simpl. split; [by left|].
    destruct r as [result|err]; simpl.
    + split; [done|]. split; [done|]. intros _. by eexists.
    + split; [done|]. split; done.
  - by simplify_eq/=.
Qed.

(** X14.  The single-step page runs one onboarding at a time.  In every
    state it reaches, at most one handler is in flight, and one is in
    flight exactly while the phase is [running]; no deployment result is
    held while it runs, and one is held whenever the phase is
    [success]. *)
Theorem onboard_one_at_a_time
  (hk : OnboardHooks) (w : W) (es : list OnboardEvent)
  (ui : OnboardUI W) :
  onboard_run O onboardClient es (onboard_init hk w) = Some ui ->
  single_flight ui.
Proof.
  assert (single_flight (onboard_init hk w)) as Hinit.
  { unfold single_flight. simpl. split; [by left|]. done. }
  revert Hinit. generalize (onboard_init hk w).
  induction es as [|e es IH]; intros ui0 Hinit Hrun; simpl in Hrun.
  - by simplify_eq.
  - destruct (onboard_step O onboardClient e ui0) as [ui1|] eqn:Hstep;
      [|done].
    apply (IH ui1); [|done]. by apply (single_flight_step e ui0).
Qed.

End OnboardProperties.

(** ** The further properties on concrete runs *)

Lemma ensureWalletOnBase_resolves_on_base_witness :
  Trace.last_resolved
    (MultiStep.ensureWalletOnBase (Scenario.scripted Scenario.cooperative)
       Scenario.readyHooks (Scenario.mainnet, [])).1.2
  = Some (2%nat, Some MultiStep.base_id)
  /\ is_Some
       (MultiStep.account_of (Scenario.scripted Scenario.cooperative) 2%nat
          (MultiStep.ensureWalletOnBase
             (Scenario.scripted Scenario.cooperative)
             Scenario.readyHooks (Scenario.mainnet, [])).1.1)
  /\ MultiStep.uncaught_rejection
       (MultiStep.ensureWalletOnBase (Scenario.scripted Scenario.cooperative)
          Scenario.readyHooks (Scenario.mainnet, [])).1.2
     = None.
Proof.
  set (run := MultiStep.ensureWalletOnBase _ _ _).
  apply (ensureWalletOnBase_resolves_on_base
           (Scenario.scripted Scenario.cooperative) Scenario.readyHooks
           Scenario.mainnet run.1.1 run.1.2 2%nat).
  vm_compute. reflexivity.
Defined.

Lemma ensureWalletOnBase_rejections_witness :
  MultiStep.account_of (Scenario.scripted Scenario2.accountless) 2%nat
    MultiStep.base_id = None.
Proof.
  assert (MultiStep.ensureWalletOnBase
            (Scenario.scripted Scenario2.accountless) Scenario.readyHooks
            (Scenario.mainnet, [])
          = ((MultiStep.base_id,
              [MultiStep.EvCall (MultiStep.CGetChainId 1%nat) None;
               MultiStep.EvResolved 1%nat (Some Scenario.mainnet);
               MultiStep.EvCall
                 (MultiStep.CSwitchChain 1%nat MultiStep.base_id) None;
               MultiStep.EvCall MultiStep.CRefetchWalletClient None;
               MultiStep.EvCall (MultiStep.CGetChainId 2%nat) None;
               MultiStep.EvResolved 2%nat (Some MultiStep.base_id)]),
             Rejected (ThrownError
                         (new_Error MultiStep.msg_no_account)))) as Hrun.
  { vm_compute. reflexivity. }
  apply (ensureWalletOnBase_rejections _ _ _ _ _ _ Hrun).
Defined.

Lemma ensureWalletOnBase_never_retries_witness :
  Trace.count_calls Trace.is_getChainId
    (MultiStep.ensureWalletOnBase (Scenario.scripted Scenario.cooperative)
       Scenario.readyHooks (Scenario.mainnet, [])).1.2 = 2%nat
  /\ Trace.count_calls Trace.is_provider_switch
    (MultiStep.ensureWalletOnBase (Scenario.scripted Scenario.cooperative)
       Scenario.readyHooks (Scenario.mainnet, [])).1.2 = 0%nat.
Proof.
  set (run := MultiStep.ensureWalletOnBase _ _ _).
  destruct (ensureWalletOnBase_never_retries
              (Scenario.scripted Scenario.cooperative) Scenario.readyHooks
              Scenario.mainnet run.1.1 run.1.2 run.2)
    as (Hget & _ & Hprovider & _).
  { vm_compute. reflexivity. }
  split; vm_compute; reflexivity.
Defined.

Lemma ensureWalletOnBase_session_changes_by_refresh_witness :
  Trace.resolved_call MultiStep.is_switch
    (MultiStep.ensureWalletOnBase (Scenario.scripted Scenario.cooperative)
       Scenario.readyHooks (Scenario.mainnet, [])).1.2 = true
  /\ Trace.resolved_call Trace.is_refetch
    (MultiStep.ensureWalletOnBase (Scenario.scripted Scenario.cooperative)
       Scenario.readyHooks (Scenario.mainnet, [])).1.2 = true.
Proof.
  set (run := MultiStep.ensureWalletOnBase _ _ _).
  apply (ensureWalletOnBase_session_changes_by_refresh
           (Scenario.scripted Scenario.cooperative) Scenario.readyHooks
           1%nat 2%nat Scenario.mainnet run.1.1 run.1.2).
  - reflexivity.
  - vm_compute. reflexivity.
  - discriminate.
Defined.

Lemma ensureWalletOnBase_adopts_refreshed_session_witness :
  exists w4 tr4,
    MultiStep.ensureWalletOnBase (Scenario.scripted Scenario.cooperative)
      Scenario.readyHooks (Scenario.mainnet, [])
    = ((w4, tr4), Resolved 2%nat)
    /\ Trace.count_calls Trace.is_provider_switch tr4 = 0%nat.
Proof.
  eexists _, _.
  eapply (ensureWalletOnBase_adopts_refreshed_session
            (Scenario.scripted Scenario.cooperative) Scenario.readyHooks
            1%nat 2%nat Scenario.mainnet).
  - reflexivity.
  - vm_compute. reflexivity.
  - reflexivity.
  - reflexivity.
  - vm_compute. reflexivity.
  - reflexivity.
  - vm_compute. reflexivity.
  - vm_compute. reflexivity.
  - vm_compute. reflexivity.
Defined.

Lemma sdk_receives_vetted_inputs_witness :
  View.sdk_call_vetted MultiStep.transfer Scenario.readyHooks
    Scenario.completedState
    (MultiStep.run_handler (Scenario.scripted Scenario.cooperative)
       MultiStep.transfer Scenario.readyHooks Scenario.completedState
       (Scenario.mainnet, [])).1.2
    (MultiStep.CTransferAssetFromCallerToSafe
       (MultiStep.safeAddress Scenario.sampleSafe) Scenario.usdc
       (js "1000000")).
Proof.
  set (run := MultiStep.run_handler _ _ _ _ _).
  apply (sdk_receives_vetted_inputs
           (Scenario.scripted Scenario.cooperative) MultiStep.transfer
           Scenario.readyHooks Scenario.completedState run.2
           Scenario.mainnet run.1.1 run.1.2 _ None).
  - vm_compute. reflexivity.
  - vm_compute. do 7 right. left. reflexivity.
  - reflexivity.
Defined.

Lemma handler_outcome_witness :
  MultiStep.deployPhase
    (MultiStep.run_handler (Scenario.scripted Scenario.cooperative)
       MultiStep.deploy Scenario.readyHooks MultiStep.initialState
       (Scenario.mainnet, [])).2 = MultiStep.success.
Proof.
  set (run := MultiStep.run_handler _ _ _ _ _).
  destruct (handler_outcome
              (Scenario.scripted Scenario.cooperative) MultiStep.deploy
              Scenario.readyHooks MultiStep.initialState run.2
              Scenario.mainnet run.1.1 run.1.2)
    as (Hsuccess & _).
  { vm_compute. reflexivity. }
  apply Hsuccess. vm_compute. reflexivity.
Defined.

Lemma page_outcomes_backed_witness :
  exists ui,
    MultiStep.ui_run (Scenario.scripted Scenario.cooperative) Scenario2.busy
      (MultiStep.ui_init Scenario.readyHooks MultiStep.base_id) = Some ui
    /\ View.outcomes_backed (MultiStep.ui_state ui).
Proof.
  eexists. split; [vm_compute; reflexivity|].
  eapply proj1.
  apply (page_outcomes_backed (Scenario.scripted Scenario.cooperative)
           Scenario.readyHooks MultiStep.base_id Scenario2.busy).
  vm_compute. reflexivity.
Defined.

Lemma delivered_click_witness :
  exists ui',
    MultiStep.ui_step (Scenario.scripted Scenario.cooperative)
      (MultiStep.Click MultiStep.deploy)
      (MultiStep.ui_init Scenario.readyHooks MultiStep.base_id) = Some ui'
    /\ MultiStep.deployPhase (MultiStep.ui_state ui') = MultiStep.running.
Proof.
  eexists. split; [vm_compute; reflexivity|].
  apply (delivered_click (Scenario.scripted Scenario.cooperative)
           MultiStep.deploy
           (MultiStep.ui_init Scenario.readyHooks MultiStep.base_id));
    [vm_compute; reflexivity | reflexivity].
Defined.

Lemma downstream_needs_successful_deploy_witness :
  exists ui,
    MultiStep.ui_run (Scenario.scripted Scenario.cooperative)
      Scenario.patient
      (MultiStep.ui_init Scenario.readyHooks MultiStep.base_id) = Some ui
    /\ View.deploy_result_current (MultiStep.ui_state ui).
Proof.
  eexists. split; [vm_compute; reflexivity|].
  apply (downstream_needs_successful_deploy
           (Scenario.scripted Scenario.cooperative)
           Scenario.readyHooks MultiStep.base_id Scenario.patient);
    vm_compute; reflexivity.
Defined.

Lemma form_inputs_kept_witness :
  exists ui',
    MultiStep.ui_step (Scenario.scripted Scenario.cooperative)
      (MultiStep.Click MultiStep.deploy)
      (MultiStep.ui_init Scenario.readyHooks MultiStep.base_id) = Some ui'
    /\ View.form_inputs (MultiStep.ui_state ui')
       = View.form_inputs MultiStep.initialState.
Proof.
  eexists. split; [vm_compute; reflexivity|].
  apply (form_inputs_kept (Scenario.scripted Scenario.cooperative)
           (MultiStep.Click MultiStep.deploy)
           (MultiStep.ui_init Scenario.readyHooks MultiStep.base_id));
    [vm_compute; reflexivity | discriminate].
Defined.

Lemma handleConnect_finds_connector_witness :
  Connection.handleConnect Scenario2.offered (js "ledger")
  = Some (Scenario2.ledger, MultiStep.base_id).
Proof.
  destruct (handleConnect_finds_connector Scenario2.offered (js "ledger"))
    as (_ & _ & Hbutton).
  apply (Hbutton Scenario2.ledger).
  - simpl. tauto.
  - apply (bool_decide_unpack (NoDup _)). vm_compute. exact I.
Defined.

Lemma loading_hint_matches_buttons_witness :
  exists c,
    In c Scenario2.offered /\ Connection.conn_ready c = false
    /\ Connection.connector_disabled Scenario2.asciiLower
         Connection.connect_idle c = false.
Proof.
  apply (loading_hint_matches_buttons Scenario2.asciiLower Scenario2.offered
           Connection.connect_idle).
  - discriminate.
  - vm_compute. reflexivity.
Defined.

Lemma onboard_one_at_a_time_witness :
  exists ui,
    Onboard.onboard_run (Scenario.scripted Scenario.cooperative)
      Scenario2.onboardSdk Scenario2.onboardTwice
      (Onboard.onboard_init Scenario2.onboardHooks MultiStep.base_id)
    = Some ui
    /\ Onboard.single_flight ui.
Proof.
  eexists. split; [vm_compute; reflexivity|].
  apply (onboard_one_at_a_time (Scenario.scripted Scenario.cooperative)
           Scenario2.onboardSdk Scenario2.onboardHooks MultiStep.base_id
           Scenario2.onboardTwice).
  vm_compute. reflexivity.
Defined.

Lemma negotiate_is_ensureWalletOnBase_witness :
  MultiStep.ensureWalletOnBase (Scenario.scripted Scenario.cooperative)
    Scenario.readyHooks (Scenario.mainnet, [])
  = (let (s', r) :=
       Onboard.negotiate (Scenario.scripted Scenario.cooperative)
         Scenario.readyHooks 1%nat (Scenario.mainnet, []) in
     (s', Onboard.session_of r)).
Proof.
  apply (negotiate_is_ensureWalletOnBase
           (Scenario.scripted Scenario.cooperative) Scenario.readyHooks
           1%nat (Scenario.mainnet, [])).
  reflexivity.
Defined.
